(** * IBEX35 factor-model analysis: a shallow embedding of [main.py]

    The script is a linear pipeline over pandas data frames: daily closing
    prices are cleaned and turned into monthly returns, the Fama-French
    factor file is parsed and cleaned, both are merged on month-start dates,
    and two ordinary-least-squares regressions are run per valid stock.

    Conventions of the embedding.
    - A float64 is an exact rational or NaN: [cell := option Q], [None] being
      NaN.  Rounding, overflow and infinities are not represented; where
      float64 would give an infinity (a division by zero) the embedding gives
      NaN, and every statement about a quotient assumes a non-zero divisor.
    - A data frame is a list of column labels and a list of rows in index
      order; a row is its index label and a map from column label to cell.
    - An exception is a value of [error]; code that can raise returns a
      [result].  Files written by the script are collected in a log of
      [artifact]s that survives a later exception.
    - pandas and statsmodels operations follow their documented behaviour
      for pandas 1.x/2.x (the resampling alias ["M"] is not accepted later)
      and statsmodels 0.14; the least-squares solver itself is a parameter
      of the regression section. *)

From Stdlib Require Import List String Ascii Bool Arith PeanoNat Lia Sorted Permutation.
From Stdlib Require Import ZArith QArith Qfield Lqa.
Import ListNotations.

Set Implicit Arguments.

Local Open Scope string_scope.
Local Open Scope list_scope.
Local Open Scope nat_scope.

(** ** Exceptions *)

Inductive error : Type :=
| KeyError (key : string)
| ValueError (msg : string)
| InvalidIndexError.

Inductive result (A : Type) : Type :=
| Ok (a : A)
| Raise (e : error).

Arguments Ok {A} a.
Arguments Raise {A} e.

Definition rbind {A B : Type} (m : result A) (f : A -> result B) : result B :=
  match m with
  | Ok a => f a
  | Raise e => Raise e
  end.

Notation "x <- m ;; k" := (rbind m (fun x => k))
  (at level 61, m at next level, right associativity).

Definition is_ok {A : Type} (r : result A) : bool :=
  match r with
  | Ok _ => true
  | Raise _ => false
  end.

Fixpoint mapM {A B : Type} (f : A -> result B) (l : list A) : result (list B) :=
  match l with
  | [] => Ok []
  | a :: l' => b <- f a ;; bs <- mapM f l' ;; Ok (b :: bs)
  end.

(** ** Timestamps and monthly periods *)

Record Timestamp : Type := mkDate { year : Z; month : Z; day : Z }.

(** Ordinal of the calendar month of a timestamp (what [to_period("M")]
    keeps of it). *)
Definition month_ord (d : Timestamp) : Z := (12 * year d + (month d - 1))%Z.

Definition date_eqb (a b : Timestamp) : bool :=
  (year a =? year b)%Z && (month a =? month b)%Z && (day a =? day b)%Z.

Definition date_ltb (a b : Timestamp) : bool :=
  (year a <? year b)%Z
  || ((year a =? year b)%Z
      && ((month a <? month b)%Z
          || ((month a =? month b)%Z && (day a <? day b)%Z))).

Definition date_leb (a b : Timestamp) : bool := date_ltb a b || date_eqb a b.

Definition is_leap (y : Z) : bool :=
  ((y mod 4 =? 0)%Z && negb (y mod 100 =? 0)%Z) || (y mod 400 =? 0)%Z.

Definition days_in_month (y m : Z) : Z :=
  match m with
  | 2 => if is_leap y then 29 else 28
  | 4 | 6 | 9 | 11 => 30
  | _ => 31
  end%Z.

(** Label of a monthly bin of [resample("M")]: the last calendar day. *)
Definition month_end (o : Z) : Timestamp :=
  mkDate (o / 12) (o mod 12 + 1) (days_in_month (o / 12) (o mod 12 + 1)).

(** First calendar day of the month with ordinal [o]. *)
Definition month_start (o : Z) : Timestamp := mkDate (o / 12) (o mod 12 + 1) 1.

(** The [n] consecutive month ordinals from [lo] on. *)
Fixpoint zrange (lo : Z) (n : nat) : list Z :=
  match n with
  | O => []
  | S k => lo :: zrange (lo + 1) k
  end.

(** [index.to_period("M").to_timestamp()] on one label. *)
Definition to_month_start (d : Timestamp) : Timestamp := mkDate (year d) (month d) 1.

(** ** Cells, rows, series and frames *)

Abbreviation cell := (option Q) (only parsing).

Definition notna (c : cell) : bool :=
  match c with Some _ => true | None => false end.

Abbreviation Row := (string -> cell) (only parsing).

Abbreviation Series := (list (Timestamp * cell)) (only parsing).

Record DataFrame : Type := mkFrame {
  columns : list string;
  rows : list (Timestamp * Row)
}.

Definition index (df : DataFrame) : list Timestamp := map fst (rows df).

Definition series_index (s : Series) : list Timestamp := map fst s.

Definition nan_row : Row := fun _ => None.

Definition mem (c : string) (l : list string) : bool :=
  existsb (String.eqb c) l.

(** A literal row: the cells of [vals] under the labels [cols]. *)
Fixpoint row_of (cols : list string) (vals : list cell) : Row :=
  match cols, vals with
  | c :: cols', v :: vals' =>
      fun k => if String.eqb k c then v else row_of cols' vals' k
  | _, _ => nan_row
  end.

(** [df[name]]: one column as a series. *)
Definition getcol (df : DataFrame) (name : string) : result Series :=
  if mem name (columns df)
  then Ok (map (fun r => (fst r, snd r name)) (rows df))
  else Raise (KeyError name).

(** [df[names]]: a frame restricted to the listed columns. *)
Fixpoint first_missing (names have : list string) : option string :=
  match names with
  | [] => None
  | n :: names' => if mem n have then first_missing names' have else Some n
  end.

Definition select (df : DataFrame) (names : list string) : result DataFrame :=
  match first_missing names (columns df) with
  | None => Ok (mkFrame names (rows df))
  | Some n => Raise (KeyError n)
  end.

(** [DataFrame.dropna()]: drop every row holding a NaN in any column. *)
Definition complete_row (cols : list string) (r : Timestamp * Row) : bool :=
  forallb (fun c => notna (snd r c)) cols.

Definition dropna (df : DataFrame) : DataFrame :=
  mkFrame (columns df) (filter (complete_row (columns df)) (rows df)).

(** [Series.dropna()]. *)
Definition series_dropna (s : Series) : Series :=
  filter (fun e => notna (snd e)) s.

(** [.empty] *)
Definition empty {A : Type} (l : list A) : bool :=
  match l with [] => true | _ => false end.

(** ** Float arithmetic on cells *)

Definition cell_sub (a b : cell) : cell :=
  match a, b with
  | Some x, Some y => Some (x - y)%Q
  | _, _ => None
  end.

Definition cell_div (a b : cell) : cell :=
  match a, b with
  | Some x, Some y => if Qeq_bool y 0 then None else Some (x / y)%Q
  | _, _ => None
  end.

Definition cell_eq (a b : cell) : Prop :=
  match a, b with
  | Some x, Some y => (x == y)%Q
  | None, None => True
  | _, _ => False
  end.

(** ** 1. Settings *)

Definition stocks : list string :=
  ["BKT.MC"; "ENG.MC"; "ANA.MC"; "COL.MC"; "LOG.MC"].

Definition index_ticker : string := "^IBEX".

Definition all_tickers : list string := stocks ++ [index_ticker].

(** ** 2. Price data

    [close] stands for [data["Close"]], the frame of daily closing prices
    returned by the download, one column per requested ticker. *)

Definition prices (close : DataFrame) : DataFrame := dropna close.

(** ** 3. Monthly returns *)

Definition in_month (o : Z) (r : Timestamp * Row) : bool :=
  (month_ord (fst r) =? o)%Z.

(** Last non-NaN value of a column, NaN when there is none. *)
Fixpoint last_valid (l : list cell) : cell :=
  match l with
  | [] => None
  | c :: l' =>
      match last_valid l' with
      | Some q => Some q
      | None => c
      end
  end.

(** [resample("M").last()]: one bin per calendar month from the month of the
    earliest label to the month of the latest, labelled by month end; a bin
    holds, per column, the last non-NaN value observed in that month. *)
Definition resample_M_last (df : DataFrame) : DataFrame :=
  match map month_ord (index df) with
  | [] => mkFrame (columns df) []
  | o :: os =>
      let lo := fold_right Z.min o os in
      let hi := fold_right Z.max o os in
      mkFrame (columns df)
        (map (fun m =>
                (month_end m,
                 fun c => last_valid
                            (map (fun r => snd r c) (filter (in_month m) (rows df)))))
             (zrange lo (S (Z.to_nat (hi - lo)))))
  end.

(** [ffill()]: carry the last valid observation of each column forward. *)
Fixpoint ffill_rows (prev : Row) (rs : list (Timestamp * Row)) : list (Timestamp * Row) :=
  match rs with
  | [] => []
  | (d, r) :: rs' =>
      let r' := fun c => match r c with Some q => Some q | None => prev c end in
      (d, r') :: ffill_rows r' rs'
  end.

Definition ffill (df : DataFrame) : DataFrame :=
  mkFrame (columns df) (ffill_rows nan_row (rows df)).

(** [shift(1)]: every row takes the cells of the row before it. *)
Fixpoint shift_rows (prev : Row) (rs : list (Timestamp * Row)) : list (Timestamp * Row) :=
  match rs with
  | [] => []
  | (d, r) :: rs' => (d, prev) :: shift_rows r rs'
  end.

Definition shift (df : DataFrame) : DataFrame :=
  mkFrame (columns df) (shift_rows nan_row (rows df)).

(** Element-wise operation on two frames carrying the same index. *)
Fixpoint zip_rows (f : cell -> cell -> cell) (a b : list (Timestamp * Row))
  : list (Timestamp * Row) :=
  match a, b with
  | (d, ra) :: a', (_, rb) :: b' => (d, fun c => f (ra c) (rb c)) :: zip_rows f a' b'
  | _, _ => []
  end.

(** [pct_change()] with its default [fill_method="pad"]:
    [data = self.ffill(); data / data.shift(1) - 1]. *)
Definition pct_change (df : DataFrame) : DataFrame :=
  let data := ffill df in
  mkFrame (columns df)
    (zip_rows (fun x y => cell_sub (cell_div x y) (Some 1%Q))
       (rows data) (rows (shift data))).

Definition relabel_month_start (df : DataFrame) : DataFrame :=
  mkFrame (columns df) (map (fun r => (to_month_start (fst r), snd r)) (rows df)).

Definition monthly_prices (close : DataFrame) : DataFrame :=
  resample_M_last (prices close).

Definition monthly_returns (close : DataFrame) : DataFrame :=
  relabel_month_start (dropna (pct_change (monthly_prices close))).

(** ** 4. The Fama-French factor file

    [RawFrame] stands for the frame returned by [read_csv(..., skiprows=6)]
    with its first column already called [Date]: per row the text of the
    first column (what [astype(str)] gives) and, under its header label, the
    text of every other one.  Texts are ASCII. *)

Record RawFrame : Type := mkRaw {
  raw_columns : list string;
  raw_rows : list (string * (string -> string))
}.

(** Python's [str.strip()] on ASCII text. *)
Definition is_space (a : ascii) : bool :=
  let n := nat_of_ascii a in
  ((9 <=? n) && (n <=? 13)) || ((28 <=? n) && (n <=? 32)).

Fixpoint lstrip (s : string) : string :=
  match s with
  | EmptyString => EmptyString
  | String a s' => if is_space a then lstrip s' else s
  end.

Fixpoint rstrip (s : string) : string :=
  match s with
  | EmptyString => EmptyString
  | String a s' =>
      match rstrip s' with
      | EmptyString => if is_space a then EmptyString else String a EmptyString
      | t => String a t
      end
  end.

Definition strip (s : string) : string := rstrip (lstrip s).

Definition is_digit (a : ascii) : bool :=
  let n := nat_of_ascii a in (48 <=? n) && (n <=? 57).

Definition newline : string := String (ascii_of_nat 10) EmptyString.

(** [str.match(r'^\d{6}$')]: six digits from the start, then the end of the
    text; [$] also matches just before a final line feed. *)
Definition match_6_digits (s : string) : bool :=
  match s with
  | String a (String b (String c (String d (String e (String f rest))))) =>
      forallb is_digit [a; b; c; d; e; f]
      && (String.eqb rest EmptyString || String.eqb rest newline)
  | _ => false
  end.

Definition digit_val (a : ascii) : nat := nat_of_ascii a - 48.

(** [pd.to_datetime(token, format="%Y%m")] on a six-digit token: the first
    day of that month, or [ValueError] when the last two digits are not a
    month or the date lies outside the nanosecond timestamp range
    (1677-09-21 to 2262-04-11).  Only tokens that passed the pattern reach
    this call; the embedding does not describe other texts. *)
Definition to_datetime_Ym (s : string) : result Timestamp :=
  match s with
  | String a (String b (String c (String d (String e (String f EmptyString))))) =>
      let y := Z.of_nat (1000 * digit_val a + 100 * digit_val b
                         + 10 * digit_val c + digit_val d) in
      let m := Z.of_nat (10 * digit_val e + digit_val f) in
      if forallb is_digit [a; b; c; d; e; f]
         && (1 <=? m)%Z && (m <=? 12)%Z
         && (12 * 1677 + 9 <=? 12 * y + (m - 1))%Z
         && (12 * y + (m - 1) <=? 12 * 2262 + 3)%Z
      then Ok (mkDate y m 1)
      else Raise (ValueError s)
  | _ => Raise (ValueError s)
  end.

Definition ff_columns : list string := ["Mkt-RF"; "SMB"; "HML"; "RF"].

Definition hundred : Q := 100 # 1.

Definition div100 (c : cell) : cell :=
  match c with
  | Some q => Some (q / hundred)%Q
  | None => None
  end.

(** Rows of the factor file whose stripped date token is a YYYYMM text. *)
Definition keep_YYYYMM (raw : RawFrame) : list (string * (string -> string)) :=
  filter (fun r => match_6_digits (fst r))
         (map (fun r => (strip (fst r), snd r)) (raw_rows raw)).

(** ** 5.-6. Alignment and merge *)

(** [Index.min()] and [Index.max()]; [None] is NaT, on an empty index. *)
Fixpoint index_min (l : list Timestamp) : option Timestamp :=
  match l with
  | [] => None
  | d :: l' =>
      match index_min l' with
      | Some m => Some (if date_ltb m d then m else d)
      | None => Some d
      end
  end.

Fixpoint index_max (l : list Timestamp) : option Timestamp :=
  match l with
  | [] => None
  | d :: l' =>
      match index_max l' with
      | Some m => Some (if date_ltb d m then m else d)
      | None => Some d
      end
  end.

(** [.loc[lo:hi]] on a monotonic date index: labels between the bounds,
    both included.  With NaT bounds (an empty factor table) nothing is
    selected. *)
Definition loc_slice {A : Type} (lo hi : option Timestamp) (l : list (Timestamp * A))
  : list (Timestamp * A) :=
  match lo, hi with
  | Some a, Some b => filter (fun r => date_leb a (fst r) && date_leb (fst r) b) l
  | _, _ => []
  end.

Definition loc_frame (lo hi : option Timestamp) (df : DataFrame) : DataFrame :=
  mkFrame (columns df) (loc_slice lo hi (rows df)).

Definition to_frame (name : string) (s : Series) : DataFrame :=
  mkFrame [name]
    (map (fun e => (fst e, fun c => if String.eqb c name then snd e else None)) s).

Fixpoint insert_date (d : Timestamp) (l : list Timestamp) : list Timestamp :=
  match l with
  | [] => [d]
  | x :: l' =>
      if date_ltb d x then d :: l
      else if date_eqb d x then l
      else x :: insert_date d l'
  end.

(** Union of index labels, each once, in date order. *)
Definition union_index (l : list Timestamp) : list Timestamp :=
  fold_right insert_date [] l.

Fixpoint has_duplicates (l : list Timestamp) : bool :=
  match l with
  | [] => false
  | d :: l' => existsb (date_eqb d) l' || has_duplicates l'
  end.

(** The row of [df] labelled [d], all NaN when [d] is not in its index. *)
Definition row_at (df : DataFrame) (d : Timestamp) : Row :=
  match find (fun r => date_eqb (fst r) d) (rows df) with
  | Some r => snd r
  | None => nan_row
  end.

Fixpoint joined_row (fs : list DataFrame) (d : Timestamp) : Row :=
  match fs with
  | [] => nan_row
  | f :: fs' =>
      fun c => if mem c (columns f) then row_at f d c else joined_row fs' d c
  end.

(** [pd.concat(frames, axis=1)]: outer join on the index.  An index that
    repeats a label cannot be reindexed and raises (pandas lets it pass only
    when all indexes are identical, which the return index, one label per
    month, rules out). *)
Definition concat_axis1 (fs : list DataFrame) : result DataFrame :=
  if existsb (fun f => has_duplicates (index f)) fs
  then Raise InvalidIndexError
  else Ok (mkFrame (flat_map columns fs)
             (map (fun d => (d, joined_row fs d)) (union_index (flat_map index fs)))).

(** [frame.sub(series, axis=0)] and [series - series] on a shared index. *)
Fixpoint sub_axis0 (a : list (Timestamp * Row)) (b : Series) : list (Timestamp * Row) :=
  match a, b with
  | (d, r) :: a', (_, x) :: b' => (d, fun c => cell_sub (r c) x) :: sub_axis0 a' b'
  | _, _ => []
  end.

Fixpoint series_sub (a b : Series) : Series :=
  match a, b with
  | (d, x) :: a', (_, y) :: b' => (d, cell_sub x y) :: series_sub a' b'
  | _, _ => []
  end.

(** ** 8.-9. Regressions *)

Record RegressionResults : Type := mkFit {
  params : list (string * cell);
  tvalues : list (string * cell);
  rsquared : cell
}.

(** [series[key]] on the parameter and t-value series of a fit. *)
Fixpoint lookup (key : string) (l : list (string * cell)) : result cell :=
  match l with
  | [] => Raise (KeyError key)
  | (k, v) :: l' => if String.eqb key k then Ok v else lookup key l'
  end.

Definition column_values (df : DataFrame) (c : string) : list cell :=
  map (fun r => snd r c) (rows df).

(** [np.ptp(s) == 0.0 and np.any(s != 0.0)]: a constant, non-zero column.
    On an empty column [ptp] raises and the test counts as false; with a
    NaN the comparison is false. *)
Definition is_nonzero_const (col : list cell) : bool :=
  match col with
  | Some q :: rest =>
      forallb (fun c => match c with Some x => Qeq_bool x q | None => false end) rest
      && negb (Qeq_bool q 0)
  | _ => false
  end.

(** [sm.add_constant(X)] with its defaults [prepend=True],
    [has_constant="skip"]: a column [const] of ones is put in front unless
    [X] already holds a constant non-zero column, in which case [X] is
    returned as it is (statsmodels: "Behavior if data already has a
    constant.  The default will return data without adding another
    constant."). *)
Definition add_constant (X : DataFrame) : DataFrame :=
  if existsb (fun c => is_nonzero_const (column_values X c)) (columns X)
  then X
  else mkFrame ("const" :: columns X)
         (map (fun r => (fst r,
                         fun c => if String.eqb c "const" then Some 1%Q else snd r c))
              (rows X)).

(** [pd.DataFrame({"const": 1, "IBEX": excess_ibex})] *)
Definition capm_design (excess_ibex : Series) : DataFrame :=
  mkFrame ["const"; "IBEX"]
    (map (fun e => (fst e, row_of ["const"; "IBEX"] [Some 1%Q; snd e])) excess_ibex).

(** ** Output artifacts *)

Inductive value : Type :=
| VStr (s : string)
| VNum (c : cell).

(** A Python dict with string keys, in insertion order. *)
Abbreviation record := (list (string * value)) (only parsing).

Inductive artifact : Type :=
| Excel (path : string) (table : list record)
| Figure (path : string) (plotted : list string).

(** Column labels of [pd.DataFrame(list_of_dicts)]: the keys of the records
    in order of first appearance; no column at all for an empty list. *)
Fixpoint table_columns (t : list record) : list string :=
  match t with
  | [] => []
  | r :: t' =>
      map fst r ++ filter (fun k => negb (mem k (map fst r))) (table_columns t')
  end.

Definition get_field (key : string) (r : record) : option value :=
  match find (fun kv => String.eqb key (fst kv)) r with
  | Some kv => Some (snd kv)
  | None => None
  end.

(** The script as a computation that logs the files it writes and may stop
    on an exception. *)
Abbreviation IO A := (list artifact * result A)%type (only parsing).

Definition io_ret {A : Type} (a : A) : IO A := ([], Ok a).

Definition io_bind {A B : Type} (m : IO A) (f : A -> IO B) : IO B :=
  match m with
  | (w, Ok a) => let (w', r) := f a in (w ++ w', r)
  | (w, Raise e) => (w, Raise e)
  end.

Definition lift {A : Type} (r : result A) : IO A := ([], r).

Definition emit (a : artifact) : IO unit := ([a], Ok tt).

Notation "x <~ m ;; k" := (io_bind m (fun x => k))
  (at level 61, m at next level, right associativity).

Fixpoint for_each {A : Type} (f : A -> IO unit) (l : list A) : IO unit :=
  match l with
  | [] => io_ret tt
  | a :: l' => _ <~ f a ;; for_each f l'
  end.

Definition log {A : Type} (m : IO A) : list artifact := fst m.

Definition outcome {A : Type} (m : IO A) : result A := snd m.

(** ** The variables of the script after section 7 *)

Record Env : Type := mkEnv {
  env_prices : DataFrame;
  env_ff : DataFrame;
  env_stock_returns : DataFrame;
  env_index_returns : Series;
  env_data_merged : DataFrame;
  env_excess_stock_returns : DataFrame;
  env_excess_ibex : Series;
  env_SMB : Series;
  env_HML : Series;
  env_valid_stocks : list string
}.

(** [pd.concat([stock_returns, index_returns.rename("IBEX"), ff], axis=1).dropna()] *)
Definition data_merged (stock_returns : DataFrame) (index_returns : Series)
    (ff : DataFrame) : result DataFrame :=
  joined <- concat_axis1 [stock_returns; to_frame "IBEX" index_returns; ff] ;;
  Ok (dropna joined).

(** [[s for s in stocks if not excess_stock_returns[s].dropna().empty]] *)
Fixpoint valid_stocks (excess_stock_returns : DataFrame) (l : list string)
  : result (list string) :=
  match l with
  | [] => Ok []
  | s :: l' =>
      col <- getcol excess_stock_returns s ;;
      rest <- valid_stocks excess_stock_returns l' ;;
      Ok (if empty (series_dropna col) then rest else s :: rest)
  end.

Definition capm_record (s : string) (model : RegressionResults) : result record :=
  alpha <- lookup "const" (params model) ;;
  beta <- lookup "IBEX" (params model) ;;
  alpha_t <- lookup "const" (tvalues model) ;;
  beta_t <- lookup "IBEX" (tvalues model) ;;
  Ok [("Stock", VStr s); ("Alpha", VNum alpha); ("Beta_IBEX", VNum beta);
      ("Alpha_t", VNum alpha_t); ("Beta_t", VNum beta_t);
      ("R2", VNum (rsquared model))].

Definition ff_record (s : string) (model : RegressionResults) : result record :=
  alpha <- lookup "const" (params model) ;;
  beta <- lookup "EX_IBEX" (params model) ;;
  smb <- lookup "SMB" (params model) ;;
  hml <- lookup "HML" (params model) ;;
  Ok [("Stock", VStr s); ("Alpha", VNum alpha); ("Beta_IBEX", VNum beta);
      ("SMB_coef", VNum smb); ("HML_coef", VNum hml);
      ("R2", VNum (rsquared model))].

(** [pd.concat([excess_ibex.rename("EX_IBEX"), SMB, HML], axis=1)] followed
    by [sm.add_constant]. *)
Definition ff_design (excess_ibex SMB HML : Series) : result DataFrame :=
  X <- concat_axis1 [to_frame "EX_IBEX" excess_ibex; to_frame "SMB" SMB;
                     to_frame "HML" HML] ;;
  Ok (add_constant X).

Definition capm_path : string := "outputs/CAPM_results_244604.xlsx".
Definition ff3_path : string := "outputs/FF3_results_244604.xlsx".
Definition price_plot_path : string := "figures/price_development_244604.png".
Definition jointplot_path (s : string) : string :=
  String.append "figures/jointplot_" (String.append s "_244604.png").

Section Pipeline.

(** [pd.to_numeric(text, errors="coerce")] on one entry of the file: NaN
    for a text that is not a number. *)
Variable to_numeric : string -> cell.

(** [sm.OLS(y, X).fit()]. *)
Variable OLS_fit : Series -> DataFrame -> RegressionResults.

(** Lines 61-70: the retained rows under their month-start labels. *)
Definition ff_dated (raw : RawFrame)
  : result (list (Timestamp * (string -> string))) :=
  let kept := keep_YYYYMM raw in
  dates <- mapM (fun r => to_datetime_Ym (fst r)) kept ;;
  Ok (combine (map to_month_start dates) (map snd kept)).

(** Lines 59-80: the factor table, in decimals. *)
Definition load_factors (raw : RawFrame) : result DataFrame :=
  dated <- ff_dated raw ;;
  match first_missing ff_columns (raw_columns raw) with
  | Some n => Raise (KeyError n)
  | None =>
      let numeric :=
        mkFrame ff_columns
          (map (fun r => (fst r, fun c => to_numeric (snd r c))) dated) in
      Ok (mkFrame ff_columns
            (map (fun r => (fst r, fun c => div100 (snd r c)))
                 (rows (dropna numeric))))
  end.

(** Sections 2-7 of the script. *)
Definition prepare (close : DataFrame) (raw : RawFrame) : result Env :=
  let returns := monthly_returns close in
  ff <- load_factors raw ;;
  stock_returns <- select returns stocks ;;
  index_returns <- getcol returns index_ticker ;;
  let lo := index_min (index ff) in
  let hi := index_max (index ff) in
  let stock_returns := loc_frame lo hi stock_returns in
  let index_returns := loc_slice lo hi index_returns in
  merged <- data_merged stock_returns index_returns ff ;;
  merged_stocks <- select merged stocks ;;
  rf <- getcol merged "RF" ;;
  let excess_stock_returns := mkFrame stocks (sub_axis0 (rows merged_stocks) rf) in
  ibex <- getcol merged "IBEX" ;;
  let excess_ibex := series_sub ibex rf in
  smb <- getcol merged "SMB" ;;
  hml <- getcol merged "HML" ;;
  valid <- valid_stocks excess_stock_returns stocks ;;
  excess_stock_returns <- select excess_stock_returns valid ;;
  stock_returns <- select stock_returns valid ;;
  Ok (mkEnv (prices close) ff stock_returns index_returns merged
            excess_stock_returns excess_ibex smb hml valid).

(** Section 8: one CAPM record per valid stock. *)
Definition capm_results (env : Env) : result (list record) :=
  mapM (fun s =>
          y <- getcol (env_excess_stock_returns env) s ;;
          let X := capm_design (env_excess_ibex env) in
          capm_record s (OLS_fit y X))
       (env_valid_stocks env).

(** Section 9: one three-factor record per valid stock. *)
Definition ff_results (env : Env) : result (list record) :=
  mapM (fun s =>
          y <- getcol (env_excess_stock_returns env) s ;;
          X <- ff_design (env_excess_ibex env) (env_SMB env) (env_HML env) ;;
          ff_record s (OLS_fit y X))
       (env_valid_stocks env).

(** Sections 8-11: regressions, result files and charts. *)
Definition report (env : Env) : IO unit :=
  capm <~ lift (capm_results env) ;;
  _ <~ emit (Excel capm_path capm) ;;
  ff3 <~ lift (ff_results env) ;;
  _ <~ emit (Excel ff3_path ff3) ;;
  _ <~ emit (Figure price_plot_path (env_valid_stocks env)) ;;
  for_each (fun s => emit (Figure (jointplot_path s) [s; "IBEX"]))
           (env_valid_stocks env).

Definition main (close : DataFrame) (raw : RawFrame) : IO unit :=
  env <~ lift (prepare close raw) ;;
  report env.

End Pipeline.

(** ** Instances used to run the pipeline on concrete data *)

(** A reader of plain decimal texts ([-12.5], [0.31], [7]); any other text
    is NaN. *)
Fixpoint digits_value (acc : nat) (s : string) : option (nat * nat) :=
  match s with
  | EmptyString => Some (acc, 0)
  | String a s' =>
      if is_digit a
      then match digits_value (10 * acc + digit_val a) s' with
           | Some (v, n) => Some (v, S n)
           | None => None
           end
      else None
  end.

Fixpoint split_dot (s : string) : string * option string :=
  match s with
  | EmptyString => (EmptyString, None)
  | String a s' =>
      if Ascii.eqb a "."%char then (EmptyString, Some s')
      else let (i, f) := split_dot s' in (String a i, f)
  end.

Definition unsigned_decimal (s : string) : cell :=
  let (i, f) := split_dot s in
  match i, digits_value 0 i with
  | String _ _, Some (iv, _) =>
      match f with
      | None => Some (Z.of_nat iv # 1)
      | Some fs =>
          match digits_value 0 fs with
          | Some (fv, n) =>
              Some (Qred ((Z.of_nat iv # 1)
                          + (Z.of_nat fv # Pos.of_nat (10 ^ n))))%Q
          | None => None
          end
      end
  | _, _ => None
  end.

Definition parse_decimal (s : string) : cell :=
  match s with
  | String "-"%char s' =>
      match unsigned_decimal s' with
      | Some q => Some (Qred (- q))%Q
      | None => None
      end
  | _ => unsigned_decimal s
  end.

(** Exact least squares: a solution of the normal equations [X'X b = X'y]
    by Gauss-Jordan elimination over the rationals (the solution when [X]
    has full column rank).  The coefficient of determination is exact; the
    t-statistics need a square root and are left NaN. *)
Definition num (c : cell) : Q :=
  match c with Some q => q | None => 0%Q end.

Definition qsum (l : list Q) : Q := fold_right Qplus 0%Q l.

Fixpoint zipq (f : Q -> Q -> Q) (a b : list Q) : list Q :=
  match a, b with
  | x :: a', y :: b' => f x y :: zipq f a' b'
  | _, _ => []
  end.

Definition dot (a b : list Q) : Q := qsum (zipq Qmult a b).

Definition entry (j : nat) (r : list Q) : Q := nth j r 0%Q.

(** [r - (entry j r) * p], where [p] has a one in column [j]. *)
Definition clear_column (j : nat) (p r : list Q) : list Q :=
  zipq (fun x y => Qred (y - entry j r * x))%Q p r.

Fixpoint take_pivot (j : nat) (todo : list (list Q))
  : option (list Q * list (list Q)) :=
  match todo with
  | [] => None
  | r :: todo' =>
      if Qeq_bool (entry j r) 0
      then match take_pivot j todo' with
           | Some (p, rest) => Some (p, r :: rest)
           | None => None
           end
      else Some (r, todo')
  end.

Fixpoint gauss_jordan (cols : list nat) (done : list (nat * list Q))
    (todo : list (list Q)) : list (nat * list Q) :=
  match cols with
  | [] => done
  | j :: cols' =>
      match take_pivot j todo with
      | None => gauss_jordan cols' done todo
      | Some (p, rest) =>
          let p1 := map (fun x => Qred (x / entry j p))%Q p in
          gauss_jordan cols'
            (map (fun d => (fst d, clear_column j p1 (snd d))) done ++ [(j, p1)])
            (map (clear_column j p1) rest)
      end
  end.

Definition solve (k : nat) (augmented : list (list Q)) : list Q :=
  let done := gauss_jordan (seq 0 k) [] augmented in
  map (fun j =>
         match find (fun d => fst d =? j) done with
         | Some d => entry k (snd d)
         | None => 0%Q
         end)
      (seq 0 k).

Definition OLS_exact (y : Series) (X : DataFrame) : RegressionResults :=
  let cols := columns X in
  let xcol := fun c => map num (column_values X c) in
  let ys := map (fun e => num (snd e)) y in
  let augmented :=
    map (fun c => map (fun c' => dot (xcol c) (xcol c')) cols ++ [dot (xcol c) ys])
        cols in
  let b := solve (List.length cols) augmented in
  let fitted := map (fun r => dot (map (fun c => num (snd r c)) cols) b) (rows X) in
  let ssr := qsum (map (fun e => e * e)%Q (zipq Qminus ys fitted)) in
  let n := Z.of_nat (List.length ys) # 1 in
  let centre :=
    if existsb (fun c => is_nonzero_const (column_values X c)) cols
    then (qsum ys / n)%Q else 0%Q in
  let tss := qsum (map (fun v => (v - centre) * (v - centre))%Q ys) in
  mkFit (combine cols (map (fun q => Some (Qred q)) b))
        (map (fun c => (c, None)) cols)
        (if Qeq_bool tss 0 then None else Some (Qred (1 - ssr / tss))%Q).

(** Sample data: one closing price per month for the five stocks and the
    index, and a factor file. *)
Definition px (z : Z) : cell := Some (z # 1).

Definition close_row (d : Timestamp) (vals : list cell) : Timestamp * Row :=
  (d, row_of all_tickers vals).

Definition raw_row (token mkt smb hml rf : string) : string * (string -> string) :=
  (token,
   fun c => if String.eqb c "Mkt-RF" then mkt
            else if String.eqb c "SMB" then smb
            else if String.eqb c "HML" then hml
            else if String.eqb c "RF" then rf
            else EmptyString).

(** Four consecutive months, every ticker quoted. *)
Definition close_4m : DataFrame :=
  mkFrame all_tickers
    [close_row (mkDate 2023 1 30) [px 10; px 20; px 40; px 50; px 80; px 100];
     close_row (mkDate 2023 1 31) [px 10; px 20; px 40; px 50; px 80; px 100];
     close_row (mkDate 2023 2 28) [px 11; px 21; px 42; px 55; px 84; px 110];
     close_row (mkDate 2023 3 31) [px 12; px 20; px 45; px 50; px 90; px 99];
     close_row (mkDate 2023 4 28) [px 15; px 22; px 40; px 60; px 81; px 110]].

(** The same quotes with no observation in March. *)
Definition close_gap : DataFrame :=
  mkFrame all_tickers
    [close_row (mkDate 2023 1 31) [px 10; px 20; px 40; px 50; px 80; px 100];
     close_row (mkDate 2023 2 28) [px 11; px 21; px 42; px 55; px 84; px 110];
     close_row (mkDate 2023 4 28) [px 15; px 22; px 40; px 60; px 81; px 110]].

(** Two months only: a single monthly return. *)
Definition close_2m : DataFrame :=
  mkFrame all_tickers
    [close_row (mkDate 2023 1 31) [px 10; px 20; px 40; px 50; px 80; px 100];
     close_row (mkDate 2023 2 28) [px 11; px 21; px 42; px 55; px 84; px 110]].

(** Two of the five stocks ([ENG.MC], [COL.MC]) carry no quote at all. *)
Definition close_2_missing : DataFrame :=
  mkFrame all_tickers
    [close_row (mkDate 2023 1 31) [px 10; None; px 40; None; px 80; px 100];
     close_row (mkDate 2023 2 28) [px 11; None; px 42; None; px 84; px 110];
     close_row (mkDate 2023 3 31) [px 12; None; px 45; None; px 90; px 99];
     close_row (mkDate 2023 4 28) [px 15; None; px 40; None; px 81; px 110]].

Definition factors_2023 : RawFrame :=
  mkRaw ff_columns
    [raw_row "202301" "1.50" "0.30" "-0.20" "0.10";
     raw_row "202302" "-0.80" "0.10" "0.40" "0.10";
     raw_row "202303" "2.10" "-0.50" "0.20" "0.20";
     raw_row "202304" "0.40" "0.20" "-0.10" "0.20";
     raw_row " Annual Factors: January-December" "" "" "" "";
     raw_row "  2023" "3.20" "0.10" "0.30" "0.60"].

Definition factors_2019 : RawFrame :=
  mkRaw ff_columns
    [raw_row "201901" "1.50" "0.30" "-0.20" "0.10";
     raw_row "201902" "-0.80" "0.10" "0.40" "0.10"].

Definition factors_bad_month : RawFrame :=
  mkRaw ff_columns
    [raw_row "202301" "1.50" "0.30" "-0.20" "0.10";
     raw_row "202313" "-0.80" "0.10" "0.40" "0.10"].

(** ** Notions used in the statements *)

(** The excess-return frame of a panel: every stock column minus [RF]. *)
Definition excess_rows (merged : DataFrame) : list (Timestamp * (string -> option Q)) :=
  map (fun r => (fst r, fun c => cell_sub (snd r c) (snd r "RF"))) (rows merged).

Ltac bind_inv H :=
  match type of H with
  | rbind ?m _ = Ok _ =>
      let E := fresh "E" in
      destruct m eqn:E; [cbn [rbind] in H | discriminate H]
  end.

(** The frames the aligner works on: the stock and index monthly returns
    cut to the date range of the factor table. *)
Definition sliced_stock_returns (close ff : DataFrame) : DataFrame :=
  mkFrame stocks
    (loc_slice (index_min (index ff)) (index_max (index ff))
               (rows (monthly_returns close))).

Definition sliced_index_returns (close ff : DataFrame) : list (Timestamp * option Q) :=
  loc_slice (index_min (index ff)) (index_max (index ff))
            (map (fun r => (fst r, snd r index_ticker)) (rows (monthly_returns close))).

(** A text of exactly six decimal digits. *)
Definition six_digits (s : string) : bool :=
  (String.length s =? 6) && forallb is_digit (list_ascii_of_string s).

(** The month start a six-digit YYYYMM text names. *)
Definition token_month_start (s : string) : Timestamp :=
  match map digit_val (list_ascii_of_string s) with
  | [a; b; c; d; e; f] =>
      mkDate (Z.of_nat (1000 * a + 100 * b + 10 * c + d)) (Z.of_nat (10 * e + f)) 1
  | _ => mkDate 0 0 1
  end.

Fixpoint last_char (s : string) : option ascii :=
  match s with
  | EmptyString => None
  | String a EmptyString => Some a
  | String _ s' => last_char s'
  end.

(** The calendar months in which a frame has an observation, each once. *)
Definition observed_months (df : DataFrame) : list Z :=
  nodup Z.eq_dec (map month_ord (index df)).

(** Index labels in strictly increasing date order. *)
Fixpoint chronological (l : list Timestamp) : bool :=
  match l with
  | a :: (b :: _) as t => date_ltb a b && chronological t
  | _ => true
  end.

(** The row carrying the latest date among the rows of a list. *)
Definition latest_row (l : list (Timestamp * (string -> option Q)))
  : option (Timestamp * (string -> option Q)) :=
  match l with
  | [] => None
  | r0 :: rs =>
      Some (fold_left (fun best r => if date_ltb (fst best) (fst r) then r else best)
                      rs r0)
  end.

(** The last price of a month: the price on the latest day observed in it. *)
Definition last_price (df : DataFrame) (m : Z) (c : string) : option Q :=
  match latest_row (filter (in_month m) (rows df)) with
  | Some r => snd r c
  | None => None
  end.

Definition date_lt (a b : Timestamp) : Prop := date_ltb a b = true.

(** No price of the frame is zero. *)
Definition nonzero_prices (df : DataFrame) : bool :=
  forallb (fun r =>
             forallb (fun c => match snd r c with
                               | Some q => negb (Qeq_bool q 0)
                               | None => true
                               end)
                     (columns df))
          (rows df).

(** The entry of the monthly return series for the month with ordinal [m]:
    labelled by the first day of the month and holding, for every ticker
    column, the simple return between the last prices of the months [m - 1]
    and [m]. *)
Definition is_return_entry (px : DataFrame) (m : Z)
    (row : Timestamp * (string -> option Q)) : Prop :=
  fst row = month_start m
  /\ forall c, In c (columns px) ->
       exists p q v,
         last_price px (m - 1)%Z c = Some p
         /\ last_price px m c = Some q
         /\ snd row c = Some v
         /\ (v == (q - p) / p)%Q.

(** Literal frames for the merger. *)
Definition returns_2023 : DataFrame :=
  mkFrame stocks (rows (monthly_returns close_4m)).

Definition ibex_2023 : list (Timestamp * option Q) :=
  map (fun r => (fst r, snd r index_ticker)) (rows (monthly_returns close_4m)).

Definition ff_table_2023 : DataFrame :=
  mkFrame ff_columns
    [(mkDate 2023 1 1, row_of ff_columns [Some (15 # 1000); Some (3 # 1000); Some (-2 # 1000); Some (1 # 1000)]);
     (mkDate 2023 2 1, row_of ff_columns [Some (-8 # 1000); Some (1 # 1000); Some (4 # 1000); Some (1 # 1000)]);
     (mkDate 2023 3 1, row_of ff_columns [Some (21 # 1000); Some (-5 # 1000); Some (2 # 1000); Some (2 # 1000)])]%Q.

Definition ff_table_2019 : DataFrame :=
  mkFrame ff_columns
    [(mkDate 2019 1 1, row_of ff_columns [Some (15 # 1000); Some (3 # 1000); Some (-2 # 1000); Some (1 # 1000)]);
     (mkDate 2019 2 1, row_of ff_columns [Some (-8 # 1000); Some (1 # 1000); Some (4 # 1000); Some (1 # 1000)])]%Q.

(** ** Least squares

    What [sm.OLS(y, X).fit()] returns, as far as the statements below need
    it: the parameters and t-values are named after the columns of the
    design, the parameters solve the normal equations [X'(y - X b) = 0], and
    for a design with a constant column the coefficient of determination is
    [1 - ssr / centered_tss]. *)

Definition predict (b : list (string * option Q)) (x : string -> option Q) : Q :=
  qsum (map (fun kv => num (snd kv) * num (x (fst kv)))%Q b).

Fixpoint residuals (y : list (Timestamp * option Q))
    (rs : list (Timestamp * (string -> option Q))) (b : list (string * option Q))
  : list Q :=
  match y, rs with
  | (_, v) :: y', (_, x) :: rs' => (num v - predict b x)%Q :: residuals y' rs' b
  | _, _ => []
  end.

Definition normal_equations (y : list (Timestamp * option Q)) (X : DataFrame)
    (b : list (string * option Q)) : Prop :=
  forall c, In c (columns X) ->
    (dot (map num (column_values X c)) (residuals y (rows X) b) == 0)%Q.

Definition ssr (y : list (Timestamp * option Q)) (X : DataFrame)
    (b : list (string * option Q)) : Q :=
  qsum (map (fun e => e * e)%Q (residuals y (rows X) b)).

Definition count {A : Type} (l : list A) : Q := inject_Z (Z.of_nat (List.length l)).

Definition centered_tss (y : list (Timestamp * option Q)) : Q :=
  let mean := (qsum (map (fun e => num (snd e)) y) / count y)%Q in
  qsum (map (fun e => (num (snd e) - mean) * (num (snd e) - mean))%Q y).

Definition least_squares (y : list (Timestamp * option Q)) (X : DataFrame)
    (m : RegressionResults) : Prop :=
  map fst (params m) = columns X
  /\ map fst (tvalues m) = columns X
  /\ (forall kv, In kv (params m) -> snd kv <> None)
  /\ normal_equations y X (params m)
  /\ (~ (centered_tss y == 0)%Q ->
      exists r2, rsquared m = Some r2
                 /\ (r2 == 1 - ssr y X (params m) / centered_tss y)%Q).

(** Sums over the index excess returns [x]: their sum and sum of squares. *)
Definition sum_x (pts : list (Timestamp * Q)) : Q := qsum (map snd pts).

Definition sum_xx (pts : list (Timestamp * Q)) : Q :=
  qsum (map (fun p => snd p * snd p)%Q pts).

(** The index excess return is not constant over the panel: its sample
    variance, up to the factor [n^2], is not zero. *)
Definition index_varies (pts : list (Timestamp * Q)) : Prop :=
  ~ (count pts * sum_xx pts - sum_x pts * sum_x pts == 0)%Q.

(** Every stock excess return is twice the index excess return of its row. *)
Definition twice_the_index (y : list (Timestamp * option Q))
    (pts : list (Timestamp * Q)) : Prop :=
  Forall2 (fun e p => exists v, snd e = Some v /\ (v == 2 * snd p)%Q) y pts.

Definition as_series (pts : list (Timestamp * Q)) : list (Timestamp * option Q) :=
  map (fun p => (fst p, Some (snd p))) pts.

(** Three months of index excess returns and a stock that moves twice as
    much. *)
Definition index_excess_3m : list (Timestamp * Q) :=
  [(mkDate 2023 2 1, 1 # 100); (mkDate 2023 3 1, (-2) # 100);
   (mkDate 2023 4 1, 3 # 100)]%Q.

Definition stock_excess_3m : list (Timestamp * option Q) :=
  [(mkDate 2023 2 1, Some (1 # 50)); (mkDate 2023 3 1, Some ((-4) # 100));
   (mkDate 2023 4 1, Some (6 # 100))]%Q.

Ltac twice_step IH Hvx :=
  unfold sum_x, sum_xx, dot, column_values, as_series, capm_design, qsum, ssr in *;
  simpl in IH |- *; unfold predict, qsum in *; simpl in IH |- *;
  rewrite ?IH, Hvx; ring.

(** ** Notions used in the further properties *)

(** A row of the factor file that reaches the factor table: a six-digit date
    token and four numeric factor texts. *)
Definition is_factor_row (to_numeric : string -> option Q)
    (r : string * (string -> string)) : bool :=
  six_digits (strip (fst r))
  && forallb (fun c => notna (to_numeric (snd r c))) ff_columns.

(** A factor file without the [RF] column. *)
Definition factors_without_RF : RawFrame :=
  mkRaw ["Mkt-RF"; "SMB"; "HML"]
    [raw_row "202301" "1.50" "0.30" "-0.20" "0.10";
     raw_row "202302" "-0.80" "0.10" "0.40" "0.10"].

(** A factor file with an entry that is not a number. *)
Definition factors_with_blank : RawFrame :=
  mkRaw ff_columns
    [raw_row "202301" "1.50" "0.30" "-0.20" "0.10";
     raw_row "202302" "-0.80" "" "0.40" "0.10";
     raw_row "202303" "1.2" "-0.50" "0.20" "0.20"].

(** A download without the column of [LOG.MC]. *)
Definition close_without_LOG : DataFrame :=
  mkFrame ["BKT.MC"; "ENG.MC"; "ANA.MC"; "COL.MC"; "^IBEX"] (rows close_4m).

(** An excess-return frame in which [ENG.MC] has no value at all. *)
Definition excess_with_blank_column : DataFrame :=
  mkFrame ["BKT.MC"; "ENG.MC"; "ANA.MC"]
    [(mkDate 2023 2 1, row_of ["BKT.MC"; "ENG.MC"; "ANA.MC"] [Some (1 # 100); None; None]);
     (mkDate 2023 3 1, row_of ["BKT.MC"; "ENG.MC"; "ANA.MC"] [None; None; Some (2 # 100)])]%Q.

(** Pointwise comparison of two lists. *)
Fixpoint forallb2 {A : Type} (eqb : A -> A -> bool) (l1 l2 : list A) : bool :=
  match l1, l2 with
  | [], [] => true
  | a :: l1', b :: l2' => eqb a b && forallb2 eqb l1' l2'
  | _, _ => false
  end.


(** The file an artifact is written to. *)
Definition artifact_path (a : artifact) : string :=
  match a with
  | Excel p _ => p
  | Figure p _ => p
  end.

(** Ordinals of the first and of the last calendar month holding a row. *)
Definition month_span (df : DataFrame) : option (Z * Z) :=
  match map month_ord (index df) with
  | [] => None
  | o :: os => Some (fold_right Z.min o os, fold_right Z.max o os)
  end.

(** An entry of the monthly return series for the month with ordinal [m],
    whether or not a day of that month is in the price table: labelled by
    the first day of the month, a return in every ticker column, and the
    return zero when the month holds no row of the price table. *)
Definition is_month_entry (px : DataFrame) (m : Z)
    (row : Timestamp * (string -> option Q)) : Prop :=
  fst row = month_start m
  /\ forall c, In c (columns px) ->
       exists v, snd row c = Some v
                 /\ (filter (in_month m) (rows px) = [] -> (v == 0)%Q).

(** * Properties *)

(** ** Results *)

Lemma is_ok_inv {A : Type} (r : result A) : is_ok r = true -> exists a, r = Ok a.
Proof. destruct r as [a|e]; [eauto | discriminate]. Qed.

(** ** Dates *)

Lemma date_eqb_eq (a b : Timestamp) : date_eqb a b = true <-> a = b.
Proof.
  destruct a as [ya ma da], b as [yb mb db]; unfold date_eqb; simpl.
  rewrite !andb_true_iff, !Z.eqb_eq. split.
  - intros [[-> ->] ->]. reflexivity.
  - intros H. injection H as -> -> ->. auto.
Qed.

Lemma date_eqb_refl (a : Timestamp) : date_eqb a a = true.
Proof. apply date_eqb_eq. reflexivity. Qed.

(** ** Frames *)

Lemma mem_In (c : string) (l : list string) : mem c l = true <-> In c l.
Proof.
  unfold mem. rewrite existsb_exists. split.
  - intros [x [Hx He]]. apply String.eqb_eq in He. subst. exact Hx.
  - intros H. exists c. split; [exact H | apply String.eqb_refl].
Qed.

Lemma complete_row_spec (cols : list string) (r : Timestamp * Row) :
  complete_row cols r = true <-> forall c, In c cols -> exists q, snd r c = Some q.
Proof.
  unfold complete_row. rewrite forallb_forall. split; intros H c Hc.
  - specialize (H c Hc). destruct (snd r c) as [q|]; [eauto | discriminate].
  - destruct (H c Hc) as [q ->]. reflexivity.
Qed.

Lemma dropna_complete (df : DataFrame) (r : Timestamp * Row) (c : string) :
  In r (rows (dropna df)) -> In c (columns df) -> exists q, snd r c = Some q.
Proof.
  unfold dropna; simpl. intros Hr Hc.
  apply filter_In in Hr. destruct Hr as [_ Hr].
  exact (proj1 (complete_row_spec _ _) Hr c Hc).
Qed.

Lemma filter_true {A : Type} (f : A -> bool) (l : list A) :
  (forall x, In x l -> f x = true) -> filter f l = l.
Proof.
  induction l as [|a l IH]; simpl; intros H; [reflexivity|].
  rewrite (H a (or_introl eq_refl)). f_equal. apply IH. intros x Hx. apply H. now right.
Qed.

Lemma filter_false {A : Type} (f : A -> bool) (l : list A) :
  (forall x, In x l -> f x = false) -> filter f l = [].
Proof.
  induction l as [|a l IH]; simpl; intros H; [reflexivity|].
  rewrite (H a (or_introl eq_refl)). apply IH. intros x Hx. apply H. now right.
Qed.

Lemma getcol_Ok (df : DataFrame) (t : string) (s : Series) :
  getcol df t = Ok s ->
  In t (columns df) /\ s = map (fun r => (fst r, snd r t)) (rows df).
Proof.
  unfold getcol. destruct (mem t (columns df)) eqn:E; [|discriminate].
  intros H. injection H as <-. split; [now apply mem_In | reflexivity].
Qed.

Lemma getcol_In (df : DataFrame) (t : string) :
  In t (columns df) -> getcol df t = Ok (map (fun r => (fst r, snd r t)) (rows df)).
Proof. intros H. unfold getcol. now rewrite (proj2 (mem_In _ _) H). Qed.

Lemma first_missing_None (names have : list string) :
  first_missing names have = None <-> incl names have.
Proof.
  induction names as [|n names IH]; simpl.
  - split; [intros _ x [] | reflexivity].
  - destruct (mem n have) eqn:E.
    + rewrite IH. apply mem_In in E. split.
      * intros H x [<-|Hx]; auto.
      * intros H x Hx. apply H. now right.
    + split; [discriminate|]. intros H.
      assert (In n have) as Hn by (apply H; now left).
      apply mem_In in Hn. congruence.
Qed.

Lemma select_Ok (df sel : DataFrame) (names : list string) :
  select df names = Ok sel ->
  incl names (columns df) /\ sel = mkFrame names (rows df).
Proof.
  unfold select. destruct (first_missing names (columns df)) eqn:E; [discriminate|].
  intros H. injection H as <-. split; [now apply first_missing_None | reflexivity].
Qed.

Lemma select_incl (df : DataFrame) (names : list string) :
  incl names (columns df) -> select df names = Ok (mkFrame names (rows df)).
Proof.
  intros H. unfold select. now rewrite (proj2 (first_missing_None _ _) H).
Qed.

(** ** C10: joint filtering of the daily prices *)

(** C10.  The daily price rows are filtered jointly: for every ticker column
    [t] of the cleaned price frame, the series [prices[t]] has no missing
    value and carries exactly the date index of the frame, so all tickers
    share one index; and a day on which some ticker has no closing price
    (in every row the download holds for that day) is in no ticker's
    series. *)
Theorem prices_filtered_jointly (close : DataFrame) (t : string) (s : Series) :
  getcol (prices close) t = Ok s ->
  series_dropna s = s
  /\ series_index s = index (prices close)
  /\ (forall d,
        (forall r, In r (rows close) -> fst r = d ->
                   exists u, In u (columns close) /\ snd r u = None) ->
        ~ In d (series_index s)).
Proof.
  intros H. apply getcol_Ok in H. destruct H as [Ht ->].
  split; [|split].
  - unfold series_dropna. rewrite filter_true; [reflexivity|].
    intros e He. apply in_map_iff in He. destruct He as [r [<- Hr]]. simpl.
    destruct (dropna_complete close r t Hr Ht) as [q ->]. reflexivity.
  - unfold series_index, index. rewrite map_map. reflexivity.
  - intros d Hd Hin. unfold series_index in Hin. rewrite map_map in Hin. simpl in Hin.
    apply in_map_iff in Hin. destruct Hin as [r [Hfst Hr]].
    assert (In r (rows close)) as Hrc.
    { unfold prices, dropna in Hr; simpl in Hr. apply filter_In in Hr. tauto. }
    destruct (Hd r Hrc Hfst) as [u [Hu Hnone]].
    destruct (dropna_complete close r u Hr Hu) as [q Hq]. congruence.
Qed.

(** ** Outer join on the index *)

Lemma insert_date_In (d x : Timestamp) (l : list Timestamp) :
  In x (insert_date d l) <-> x = d \/ In x l.
Proof.
  induction l as [|a l IH]; simpl.
  - intuition.
  - destruct (date_ltb d a).
    + simpl. intuition.
    + destruct (date_eqb d a) eqn:E.
      * apply date_eqb_eq in E. subst a. simpl. intuition.
      * simpl. rewrite IH. intuition.
Qed.

Lemma union_index_In (x : Timestamp) (l : list Timestamp) :
  In x (union_index l) <-> In x l.
Proof.
  unfold union_index. induction l as [|a l IH]; simpl.
  - tauto.
  - rewrite insert_date_In, IH. intuition.
Qed.

Lemma row_at_found (df : DataFrame) (d : Timestamp) :
  row_at df d = nan_row \/ In d (index df).
Proof.
  unfold row_at. destruct (find _ (rows df)) as [r|] eqn:E.
  - right. apply find_some in E. destruct E as [Hin He].
    apply date_eqb_eq in He. subst d. unfold index. now apply in_map.
  - now left.
Qed.

Lemma row_at_absent (df : DataFrame) (d : Timestamp) :
  ~ In d (index df) -> row_at df d = nan_row.
Proof. intros H. destruct (row_at_found df d); tauto. Qed.

Lemma concat_axis1_Ok (fs : list DataFrame) (df : DataFrame) :
  concat_axis1 fs = Ok df ->
  (forall f, In f fs -> has_duplicates (index f) = false)
  /\ df = mkFrame (flat_map columns fs)
            (map (fun d => (d, joined_row fs d)) (union_index (flat_map index fs))).
Proof.
  unfold concat_axis1.
  destruct (existsb (fun f => has_duplicates (index f)) fs) eqn:E; [discriminate|].
  intros H. injection H as <-. split; [|reflexivity].
  intros f Hf.
  destruct (has_duplicates (index f)) eqn:Ef; [|reflexivity].
  assert (existsb (fun f => has_duplicates (index f)) fs = true) as Hx
    by (apply existsb_exists; eauto).
  congruence.
Qed.

Lemma concat_axis1_unique (fs : list DataFrame) :
  (forall f, In f fs -> has_duplicates (index f) = false) ->
  concat_axis1 fs
  = Ok (mkFrame (flat_map columns fs)
          (map (fun d => (d, joined_row fs d)) (union_index (flat_map index fs)))).
Proof.
  intros H. unfold concat_axis1.
  destruct (existsb (fun f => has_duplicates (index f)) fs) eqn:E; [|reflexivity].
  apply existsb_exists in E. destruct E as [f [Hf Hd]].
  rewrite (H f Hf) in Hd. discriminate.
Qed.

Lemma data_merged_Ok (sr : DataFrame) (ir : Series) (ff panel : DataFrame) :
  data_merged sr ir ff = Ok panel ->
  let fs := [sr; to_frame "IBEX" ir; ff] in
  panel = dropna (mkFrame (columns sr ++ "IBEX" :: columns ff)
                    (map (fun d => (d, joined_row fs d))
                         (union_index (flat_map index fs)))).
Proof.
  unfold data_merged.
  destruct (concat_axis1 [sr; to_frame "IBEX" ir; ff]) as [j|e] eqn:E; [|discriminate].
  simpl. intros H. injection H as <-.
  apply concat_axis1_Ok in E. destruct E as [_ ->].
  simpl. rewrite app_nil_r. reflexivity.
Qed.

Lemma index_to_frame (name : string) (s : Series) :
  index (to_frame name s) = series_index s.
Proof. unfold index, to_frame, series_index; simpl. now rewrite map_map. Qed.

(** ** C3: row-wise completeness of the merged panel *)

(** C3.  The merged panel has the stock return columns, the column [IBEX]
    and the factor columns; every row of it holds a value in every one of
    these columns; and a date at which the concatenated row lacks the value
    of any single column is not in the index of the panel. *)
Theorem merged_panel_rows_complete
    (stock_returns : DataFrame) (index_returns : Series) (ff panel : DataFrame) :
  data_merged stock_returns index_returns ff = Ok panel ->
  columns panel = columns stock_returns ++ "IBEX" :: columns ff
  /\ (forall r c, In r (rows panel) -> In c (columns panel) ->
                  exists q, snd r c = Some q)
  /\ (forall d c,
        In c (columns panel) ->
        joined_row [stock_returns; to_frame "IBEX" index_returns; ff] d c = None ->
        ~ In d (index panel)).
Proof.
  intros H. apply data_merged_Ok in H. cbv zeta in H. subst panel.
  split; [reflexivity|]. split.
  - intros r c Hr Hc. exact (dropna_complete _ r c Hr Hc).
  - intros d c Hc Hnone Hd.
    unfold index in Hd. apply in_map_iff in Hd. destruct Hd as [r [Hfst Hr]].
    destruct (dropna_complete _ r c Hr Hc) as [q Hq].
    unfold dropna in Hr; simpl in Hr. apply filter_In in Hr. destruct Hr as [Hr _].
    apply in_map_iff in Hr. destruct Hr as [d' [<- _]].
    change (d' = d) in Hfst. subst d'.
    change (joined_row [stock_returns; to_frame "IBEX" index_returns; ff] d c = Some q) in Hq.
    congruence.
Qed.

(** ** C7: disjoint date ranges *)

(** C7.  When no date of the stock or index return series is a date of the
    factor table (each index holding a label once), the merge succeeds and
    the merged panel has no row. *)
Theorem merged_panel_empty_when_disjoint
    (stock_returns : DataFrame) (index_returns : Series) (ff : DataFrame) :
  columns stock_returns = stocks ->
  columns ff = ff_columns ->
  has_duplicates (index stock_returns) = false ->
  has_duplicates (series_index index_returns) = false ->
  has_duplicates (index ff) = false ->
  (forall d, In d (index stock_returns) \/ In d (series_index index_returns) ->
             ~ In d (index ff)) ->
  exists panel,
    data_merged stock_returns index_returns ff = Ok panel /\ rows panel = [].
Proof.
  intros Hcs Hcf Hd1 Hd2 Hd3 Hdisj.
  unfold data_merged. rewrite concat_axis1_unique.
  2:{ intros f [<-|[<-|[<-|[]]]]; auto. now rewrite index_to_frame. }
  simpl. eexists. split; [reflexivity|].
  unfold dropna; simpl. apply filter_false.
  intros r Hr. apply in_map_iff in Hr. destruct Hr as [d [<- _]].
  rewrite app_nil_r, Hcs, Hcf.
  destruct (row_at_found ff d) as [Hnan|Hin].
  - (* the date is not a factor date: the factor cells are missing *)
    apply not_true_is_false. intros Hc.
    destruct (proj1 (complete_row_spec _ _) Hc "RF") as [q Hq].
    { unfold stocks, ff_columns. simpl. tauto. }
    simpl in Hq. rewrite Hnan in Hq. discriminate.
  - (* a factor date: the return cells are missing *)
    apply not_true_is_false. intros Hc.
    destruct (proj1 (complete_row_spec _ _) Hc "IBEX") as [q Hq].
    { unfold stocks. simpl. tauto. }
    simpl in Hq. rewrite row_at_absent in Hq; [discriminate|].
    rewrite index_to_frame. intros Hir. apply (Hdisj d); auto.
Qed.

(** ** Excess returns and the valid stocks *)

Lemma sub_axis0_column (rs : list (Timestamp * (string -> option Q))) (k : string) :
  sub_axis0 rs (map (fun r => (fst r, snd r k)) rs)
  = map (fun r => (fst r, fun c => cell_sub (snd r c) (snd r k))) rs.
Proof.
  induction rs as [|[d r] rs IH]; simpl; [reflexivity|]. now rewrite IH.
Qed.

Lemma series_sub_columns (rs : list (Timestamp * (string -> option Q))) (a b : string) :
  series_sub (map (fun r => (fst r, snd r a)) rs) (map (fun r => (fst r, snd r b)) rs)
  = map (fun r => (fst r, cell_sub (snd r a) (snd r b))) rs.
Proof.
  induction rs as [|[d r] rs IH]; simpl; [reflexivity|]. now rewrite IH.
Qed.

Lemma valid_stocks_filter (esr : DataFrame) (l : list string) :
  incl l (columns esr) ->
  valid_stocks esr l
  = Ok (filter (fun s => negb (empty (series_dropna
                                        (map (fun r => (fst r, snd r s)) (rows esr)))))
               l).
Proof.
  induction l as [|s l IH]; simpl; intros H; [reflexivity|].
  rewrite getcol_In by (apply H; now left). simpl.
  rewrite IH by (intros x Hx; apply H; now right). simpl.
  destruct (empty _); reflexivity.
Qed.

Lemma valid_stocks_all_or_nothing (merged : DataFrame) (l : list string) :
  (forall r c, In r (rows merged) -> In c ("RF" :: l) -> exists q, snd r c = Some q) ->
  filter (fun s => negb (empty (series_dropna
                                  (map (fun r => (fst r, snd r s)) (excess_rows merged)))))
         l
  = if empty (rows merged) then [] else l.
Proof.
  intros Hc. unfold excess_rows.
  destruct (rows merged) as [|r0 rs] eqn:E.
  - simpl. apply filter_false. reflexivity.
  - cbn [empty]. apply filter_true. intros s Hs.
    cbn [map series_dropna filter fst snd].
    destruct (Hc r0 s (or_introl eq_refl) (or_intror Hs)) as [q ->].
    destruct (Hc r0 "RF" (or_introl eq_refl) (or_introl eq_refl)) as [q' ->].
    reflexivity.
Qed.

(** ** What [prepare] leaves in the environment *)

Lemma load_factors_columns (to_numeric : string -> option Q) (raw : RawFrame)
    (ff : DataFrame) :
  load_factors to_numeric raw = Ok ff -> columns ff = ff_columns.
Proof.
  unfold load_factors. intros H. bind_inv H.
  destruct (first_missing ff_columns (raw_columns raw)); [discriminate|].
  injection H as <-. reflexivity.
Qed.

Lemma prepare_Ok (to_numeric : string -> option Q) (close : DataFrame)
    (raw : RawFrame) (env : Env) :
  prepare to_numeric close raw = Ok env ->
  exists ff merged,
    load_factors to_numeric raw = Ok ff
    /\ data_merged (sliced_stock_returns close ff) (sliced_index_returns close ff) ff
       = Ok merged
    /\ columns merged = stocks ++ "IBEX" :: ff_columns
    /\ env_valid_stocks env = (if empty (rows merged) then [] else stocks)
    /\ env = mkEnv (prices close) ff
               (mkFrame (env_valid_stocks env) (rows (sliced_stock_returns close ff)))
               (sliced_index_returns close ff)
               merged
               (mkFrame (env_valid_stocks env) (excess_rows merged))
               (map (fun r => (fst r, cell_sub (snd r "IBEX") (snd r "RF"))) (rows merged))
               (map (fun r => (fst r, snd r "SMB")) (rows merged))
               (map (fun r => (fst r, snd r "HML")) (rows merged))
               (env_valid_stocks env).
Proof.
  unfold prepare. intros H.
  bind_inv H. rename a into ff.
  bind_inv H. apply select_Ok in E0. destruct E0 as [_ ->].
  bind_inv H. apply getcol_Ok in E0. destruct E0 as [_ ->].
  bind_inv H. rename a into merged.
  change (loc_frame (index_min (index ff)) (index_max (index ff))
            (mkFrame stocks (rows (monthly_returns close))))
    with (sliced_stock_returns close ff) in *.
  change (loc_slice (index_min (index ff)) (index_max (index ff))
            (map (fun r => (fst r, snd r index_ticker)) (rows (monthly_returns close))))
    with (sliced_index_returns close ff) in *.
  assert (columns merged = stocks ++ "IBEX" :: ff_columns) as Hcols.
  { pose proof (merged_cols := data_merged_Ok _ _ _ E0). cbv zeta in merged_cols.
    rewrite merged_cols. cbn [columns dropna sliced_stock_returns].
    now rewrite (load_factors_columns _ _ E). }
  assert (forall r c, In r (rows merged) -> In c (columns merged) ->
                      exists q, snd r c = Some q) as Hcomplete.
  { pose proof (Hm := data_merged_Ok _ _ _ E0). cbv zeta in Hm.
    rewrite Hm. intros r c Hr Hc. exact (dropna_complete _ r c Hr Hc). }
  bind_inv H. apply select_Ok in E1. destruct E1 as [_ ->].
  bind_inv H. apply getcol_Ok in E1. destruct E1 as [_ ->].
  bind_inv H. apply getcol_Ok in E1. destruct E1 as [_ ->].
  bind_inv H. apply getcol_Ok in E1. destruct E1 as [_ ->].
  bind_inv H. apply getcol_Ok in E1. destruct E1 as [_ ->].
  cbn [rows columns] in H.
  rewrite sub_axis0_column in H.
  rewrite valid_stocks_filter in H by (cbn [columns]; apply incl_refl).
  cbn [rbind rows] in H.
  change (map (fun r => (fst r, fun c => cell_sub (snd r c) (snd r "RF"))) (rows merged))
    with (excess_rows merged) in H.
  rewrite valid_stocks_all_or_nothing in H.
  2:{ intros r c Hr Hc. apply Hcomplete; [exact Hr|]. rewrite Hcols.
      destruct Hc as [<-|Hc].
      - apply in_or_app. right. unfold ff_columns. simpl. tauto.
      - apply in_or_app. now left. }
  rewrite series_sub_columns in H.
  assert (incl (if empty (rows merged) then [] else stocks) stocks) as Hincl.
  { destruct (empty (rows merged)); [intros x [] | apply incl_refl]. }
  rewrite !select_incl in H by exact Hincl.
  cbn [rbind rows] in H. injection H as <-.
  exists ff, merged. cbn [env_valid_stocks]. repeat split; auto.
Qed.

(** ** C9: validity is all-or-nothing *)

(** C9.  After the row-wise drop of incomplete rows every excess-return
    column of the panel is complete, so the list of valid stocks is the
    whole configured stock list when the merged panel has a row and is empty
    when it has none. *)
Theorem valid_stocks_all_or_none (to_numeric : string -> option Q)
    (close : DataFrame) (raw : RawFrame) (env : Env) :
  prepare to_numeric close raw = Ok env ->
  (forall r s, In r (rows (env_excess_stock_returns env)) ->
               In s (columns (env_excess_stock_returns env)) ->
               exists q, snd r s = Some q)
  /\ (rows (env_data_merged env) <> [] -> env_valid_stocks env = stocks)
  /\ (rows (env_data_merged env) = [] -> env_valid_stocks env = []).
Proof.
  intros H. pose proof (Hp := H). apply prepare_Ok in Hp.
  destruct Hp as [ff [merged [Hff [Hm [Hcols [Hvalid Henv]]]]]].
  assert (forall r c, In r (rows merged) -> In c (columns merged) ->
                      exists q, snd r c = Some q) as Hcomplete.
  { pose proof (Hd := data_merged_Ok _ _ _ Hm). cbv zeta in Hd.
    rewrite Hd. intros r c Hr Hc. exact (dropna_complete _ r c Hr Hc). }
  rewrite Henv. cbn [env_excess_stock_returns env_data_merged env_valid_stocks rows columns].
  split; [|split].
  - intros r s Hr Hs. unfold excess_rows in Hr.
    apply in_map_iff in Hr. destruct Hr as [r0 [<- Hr0]]. cbn [snd].
    assert (In s stocks) as Hs'.
    { rewrite Hvalid in Hs. destruct (empty (rows merged)); [destruct Hs | exact Hs]. }
    destruct (Hcomplete r0 s Hr0) as [q ->].
    { rewrite Hcols. apply in_or_app. now left. }
    destruct (Hcomplete r0 "RF" Hr0) as [q' ->].
    { rewrite Hcols. apply in_or_app. right. unfold ff_columns. simpl. tauto. }
    simpl. eauto.
  - intros Hne. rewrite Hvalid. destruct (rows merged); [congruence | reflexivity].
  - intros He. rewrite Hvalid, He. reflexivity.
Qed.

(** ** The regression loops and the files they write *)

Lemma mapM_Ok {A B : Type} (f : A -> result B) (l : list A) (bs : list B) :
  mapM f l = Ok bs -> Forall2 (fun a b => f a = Ok b) l bs.
Proof.
  revert bs. induction l as [|a l IH]; simpl; intros bs H.
  - injection H as <-. constructor.
  - bind_inv H. bind_inv H. injection H as <-. constructor; auto.
Qed.

Lemma capm_record_Ok (s : string) (m : RegressionResults) (r : list (string * value)) :
  capm_record s m = Ok r ->
  map fst r = ["Stock"; "Alpha"; "Beta_IBEX"; "Alpha_t"; "Beta_t"; "R2"]
  /\ get_field "Stock" r = Some (VStr s).
Proof.
  unfold capm_record. intros H. do 4 bind_inv H. injection H as <-. split; reflexivity.
Qed.

Lemma ff_record_Ok (s : string) (m : RegressionResults) (r : list (string * value)) :
  ff_record s m = Ok r ->
  map fst r = ["Stock"; "Alpha"; "Beta_IBEX"; "SMB_coef"; "HML_coef"; "R2"]
  /\ get_field "Stock" r = Some (VStr s).
Proof.
  unfold ff_record. intros H. do 4 bind_inv H. injection H as <-. split; reflexivity.
Qed.

Lemma capm_results_Ok (OLS_fit : list (Timestamp * option Q) -> DataFrame -> RegressionResults)
    (env : Env) (t : list (list (string * value))) :
  capm_results OLS_fit env = Ok t ->
  map (get_field "Stock") t = map (fun s => Some (VStr s)) (env_valid_stocks env)
  /\ forall r, In r t ->
       map fst r = ["Stock"; "Alpha"; "Beta_IBEX"; "Alpha_t"; "Beta_t"; "R2"].
Proof.
  unfold capm_results. intros H. apply mapM_Ok in H.
  induction H as [|s r l t Hsr _ IH]; [split; [reflexivity | intros r []]|].
  bind_inv Hsr. apply capm_record_Ok in Hsr. destruct Hsr as [Hk Hs].
  destruct IH as [IH1 IH2]. split.
  - simpl. now rewrite Hs, IH1.
  - intros r' [<-|Hr']; auto.
Qed.

Lemma ff_results_Ok (OLS_fit : list (Timestamp * option Q) -> DataFrame -> RegressionResults)
    (env : Env) (t : list (list (string * value))) :
  ff_results OLS_fit env = Ok t ->
  map (get_field "Stock") t = map (fun s => Some (VStr s)) (env_valid_stocks env)
  /\ forall r, In r t ->
       map fst r = ["Stock"; "Alpha"; "Beta_IBEX"; "SMB_coef"; "HML_coef"; "R2"].
Proof.
  unfold ff_results. intros H. apply mapM_Ok in H.
  induction H as [|s r l t Hsr _ IH]; [split; [reflexivity | intros r []]|].
  do 2 bind_inv Hsr. apply ff_record_Ok in Hsr. destruct Hsr as [Hk Hs].
  destruct IH as [IH1 IH2]. split.
  - simpl. now rewrite Hs, IH1.
  - intros r' [<-|Hr']; auto.
Qed.

Lemma for_each_emit {A : Type} (g : A -> artifact) (l : list A) :
  for_each (fun a => emit (g a)) l = (map g l, Ok tt).
Proof.
  induction l as [|a l IH]; simpl; [reflexivity|]. rewrite IH. reflexivity.
Qed.

(** The three ways a run of [report] can end. *)
Lemma report_cases (OLS_fit : list (Timestamp * option Q) -> DataFrame -> RegressionResults)
    (env : Env) :
  (exists e, capm_results OLS_fit env = Raise e
             /\ report OLS_fit env = ([], Raise e))
  \/ (exists capm e, capm_results OLS_fit env = Ok capm
                     /\ ff_results OLS_fit env = Raise e
                     /\ report OLS_fit env = ([Excel capm_path capm], Raise e))
  \/ (exists capm ff3, capm_results OLS_fit env = Ok capm
                       /\ ff_results OLS_fit env = Ok ff3
                       /\ report OLS_fit env
                          = (Excel capm_path capm :: Excel ff3_path ff3
                             :: Figure price_plot_path (env_valid_stocks env)
                             :: map (fun s => Figure (jointplot_path s) [s; "IBEX"])
                                    (env_valid_stocks env),
                             Ok tt)).
Proof.
  unfold report.
  destruct (capm_results OLS_fit env) as [capm|e] eqn:Ec.
  - destruct (ff_results OLS_fit env) as [ff3|e] eqn:Ef.
    + right. right. exists capm, ff3. repeat split.
      rewrite for_each_emit. reflexivity.
    + right. left. exists capm, e. repeat split.
  - left. exists e. split; reflexivity.
Qed.

Lemma main_prepared (to_numeric : string -> option Q)
    (OLS_fit : list (Timestamp * option Q) -> DataFrame -> RegressionResults)
    (close : DataFrame) (raw : RawFrame) (env : Env) :
  prepare to_numeric close raw = Ok env ->
  main to_numeric OLS_fit close raw = report OLS_fit env.
Proof.
  intros H. unfold main, lift, io_bind. rewrite H.
  destruct (report OLS_fit env) as [w r]. reflexivity.
Qed.

Lemma main_not_prepared (to_numeric : string -> option Q)
    (OLS_fit : list (Timestamp * option Q) -> DataFrame -> RegressionResults)
    (close : DataFrame) (raw : RawFrame) (e : error) :
  prepare to_numeric close raw = Raise e ->
  main to_numeric OLS_fit close raw = ([], Raise e).
Proof. intros H. unfold main, lift, io_bind. rewrite H. reflexivity. Qed.

Lemma table_columns_within (cols : list string) (t : list (list (string * value))) :
  (forall r, In r t -> map fst r = cols) ->
  forall k, In k (table_columns t) -> In k cols.
Proof.
  induction t as [|r t IH]; simpl; intros Ht k Hk; [tauto|].
  apply in_app_or in Hk. destruct Hk as [Hk|Hk].
  - now rewrite (Ht r (or_introl eq_refl)) in Hk.
  - apply filter_In in Hk. apply IH; [|tauto]. intros r' Hr'. apply Ht. now right.
Qed.

Lemma table_columns_uniform (cols : list string) (t : list (list (string * value))) :
  t <> [] -> (forall r, In r t -> map fst r = cols) -> table_columns t = cols.
Proof.
  intros Hne Hall. destruct t as [|r t]; [congruence|]. clear Hne.
  simpl. rewrite (Hall r (or_introl eq_refl)).
  rewrite filter_false; [apply app_nil_r|].
  intros k Hk.
  apply (table_columns_within (cols := cols)) in Hk.
  - apply mem_In in Hk. now rewrite Hk.
  - intros r' Hr'. apply Hall. now right.
Qed.

(** ** C6: the result tables and charts follow the valid stocks *)

(** C6.  In every run that reaches the regressions: the valid stocks are
    drawn from the configured list in its order; every result table written
    has exactly one row per valid stock, in the order of the valid-stock
    list; a run that ends normally has written both tables, the price chart
    and one scatter chart per valid stock, in that order; and a stock whose
    excess return is missing in every row of the merged panel is in no
    written table and in no chart. *)
Theorem tables_and_charts_follow_valid_stocks
    (to_numeric : string -> option Q)
    (OLS_fit : list (Timestamp * option Q) -> DataFrame -> RegressionResults)
    (close : DataFrame) (raw : RawFrame) (env : Env) :
  prepare to_numeric close raw = Ok env ->
  let run := main to_numeric OLS_fit close raw in
  (exists keep, env_valid_stocks env = filter keep stocks)
  /\ (forall path table,
        In (Excel path table) (log run) ->
        map (get_field "Stock") table
        = map (fun s => Some (VStr s)) (env_valid_stocks env))
  /\ (outcome run = Ok tt ->
      exists capm ff3,
        log run
        = Excel capm_path capm :: Excel ff3_path ff3
          :: Figure price_plot_path (env_valid_stocks env)
          :: map (fun s => Figure (jointplot_path s) [s; "IBEX"])
                 (env_valid_stocks env))
  /\ (forall s,
        In s stocks ->
        (forall r, In r (rows (env_data_merged env)) ->
                   cell_sub (snd r s) (snd r "RF") = None) ->
        ~ In s (env_valid_stocks env)
        /\ (forall path table,
              In (Excel path table) (log run) ->
              ~ In (Some (VStr s)) (map (get_field "Stock") table))
        /\ (forall path plotted,
              In (Figure path plotted) (log run) -> ~ In s plotted)).
Proof.
  intros H run.
  assert (Hrun : run = report OLS_fit env) by (apply main_prepared; exact H).
  pose proof (Hp := prepare_Ok _ _ _ H).
  destruct Hp as [ff [merged [Hff [Hm [Hcols [Hvalid Henv]]]]]].
  assert (Htables : forall path table,
             In (Excel path table) (log run) ->
             map (get_field "Stock") table
             = map (fun s => Some (VStr s)) (env_valid_stocks env)).
  { intros path table Hin. rewrite Hrun in Hin.
    destruct (report_cases OLS_fit env)
      as [[e [_ Hr]] | [[capm [e [Hc [_ Hr]]]] | [capm [ff3 [Hc [Hf Hr]]]]]];
      rewrite Hr in Hin; cbn [log fst] in Hin.
    - destruct Hin.
    - destruct Hin as [Hin|[]]. injection Hin as _ <-.
      exact (proj1 (capm_results_Ok _ _ Hc)).
    - destruct Hin as [Hin|[Hin|[Hin|Hin]]].
      + injection Hin as _ <-. exact (proj1 (capm_results_Ok _ _ Hc)).
      + injection Hin as _ <-. exact (proj1 (ff_results_Ok _ _ Hf)).
      + discriminate Hin.
      + apply in_map_iff in Hin. destruct Hin as [s [Hs _]]. discriminate Hs. }
  assert (Hfigs : forall path plotted,
             In (Figure path plotted) (log run) ->
             plotted = env_valid_stocks env
             \/ exists s, In s (env_valid_stocks env) /\ plotted = [s; "IBEX"]).
  { intros path plotted Hin. rewrite Hrun in Hin.
    destruct (report_cases OLS_fit env)
      as [[e [_ Hr]] | [[capm [e [Hc [_ Hr]]]] | [capm [ff3 [Hc [Hf Hr]]]]]];
      rewrite Hr in Hin; cbn [log fst] in Hin.
    - destruct Hin.
    - destruct Hin as [Hin|[]]. discriminate Hin.
    - destruct Hin as [Hin|[Hin|[Hin|Hin]]]; try discriminate Hin.
      + injection Hin as _ <-. now left.
      + apply in_map_iff in Hin. destruct Hin as [s [Hs Hin]].
        injection Hs as _ <-. right. eauto. }
  split; [|split; [|split]].
  - rewrite Hvalid. destruct (empty (rows merged)).
    + exists (fun _ => false). symmetry. apply filter_false. reflexivity.
    + exists (fun _ => true). symmetry. apply filter_true. reflexivity.
  - exact Htables.
  - intros Hout. rewrite Hrun in Hout |- *.
    destruct (report_cases OLS_fit env)
      as [[e [_ Hr]] | [[capm [e [Hc [_ Hr]]]] | [capm [ff3 [Hc [Hf Hr]]]]]];
      rewrite Hr in Hout |- *; cbn [outcome snd] in Hout; try discriminate Hout.
    exists capm, ff3. reflexivity.
  - intros s Hs Hmissing.
    assert (Hnot : ~ In s (env_valid_stocks env)).
    { rewrite Hvalid. destruct (rows merged) as [|r0 rs] eqn:Erows; [intros []|].
      exfalso.
      assert (Hr0 : In r0 (rows (env_data_merged env))).
      { rewrite Henv. cbn [env_data_merged]. rewrite Erows. now left. }
      specialize (Hmissing r0 Hr0).
      pose proof (Hd := data_merged_Ok _ _ _ Hm). cbv zeta in Hd.
      assert (Hin0 : In r0 (rows merged)) by (rewrite Erows; now left).
      rewrite Hd in Hin0.
      destruct (dropna_complete _ r0 s Hin0) as [q Hq].
      { cbn [columns sliced_stock_returns]. apply in_or_app. now left. }
      destruct (dropna_complete _ r0 "RF" Hin0) as [q' Hq'].
      { cbn [columns]. rewrite (load_factors_columns _ _ Hff).
        apply in_or_app. right. unfold ff_columns. simpl. tauto. }
      rewrite Hq, Hq' in Hmissing. discriminate Hmissing. }
    split; [exact Hnot|]. split.
    + intros path table Hin Hs'. rewrite (Htables path table Hin) in Hs'.
      apply in_map_iff in Hs'. destruct Hs' as [s' [Heq Hs']].
      injection Heq as ->. contradiction.
    + intros path plotted Hin Hs'.
      destruct (Hfigs path plotted Hin) as [->|[s' [Hv ->]]]; [contradiction|].
      destruct Hs' as [<-|[<-|[]]]; [contradiction|].
      unfold stocks in Hs. simpl in Hs. intuition discriminate.
Qed.

(** ** C5: the columns of the two result files *)

(** C5 (amended).  A result table that is written and has a row is either
    the CAPM file, with the columns Stock, Alpha, Beta_IBEX, Alpha_t, Beta_t,
    R2 in every record, or the three-factor file, with the columns Stock,
    Alpha, Beta_IBEX, SMB_coef, HML_coef, R2 in every record: the t-statistic
    columns are in the CAPM file only. *)
Theorem result_file_columns
    (to_numeric : string -> option Q)
    (OLS_fit : list (Timestamp * option Q) -> DataFrame -> RegressionResults)
    (close : DataFrame) (raw : RawFrame)
    (path : string) (table : list (list (string * value))) :
  In (Excel path table) (log (main to_numeric OLS_fit close raw)) ->
  table <> [] ->
  (path = capm_path
   /\ (forall r, In r table ->
         map fst r = ["Stock"; "Alpha"; "Beta_IBEX"; "Alpha_t"; "Beta_t"; "R2"])
   /\ table_columns table = ["Stock"; "Alpha"; "Beta_IBEX"; "Alpha_t"; "Beta_t"; "R2"])
  \/ (path = ff3_path
      /\ (forall r, In r table ->
            map fst r = ["Stock"; "Alpha"; "Beta_IBEX"; "SMB_coef"; "HML_coef"; "R2"])
      /\ table_columns table
         = ["Stock"; "Alpha"; "Beta_IBEX"; "SMB_coef"; "HML_coef"; "R2"]).
Proof.
  intros Hin Hne.
  destruct (prepare to_numeric close raw) as [env|e] eqn:Hp.
  2:{ rewrite (main_not_prepared _ _ _ _ Hp) in Hin. destruct Hin. }
  rewrite (main_prepared _ _ _ _ Hp) in Hin.
  assert (Hcapm : forall capm, capm_results OLS_fit env = Ok capm ->
             Excel capm_path capm = Excel path table ->
             path = capm_path
             /\ (forall r, In r table ->
                   map fst r = ["Stock"; "Alpha"; "Beta_IBEX"; "Alpha_t"; "Beta_t"; "R2"])
             /\ table_columns table
                = ["Stock"; "Alpha"; "Beta_IBEX"; "Alpha_t"; "Beta_t"; "R2"]).
  { intros capm Hc Heq. injection Heq as <- <-.
    pose proof (Hk := proj2 (capm_results_Ok _ _ Hc)).
    split; [reflexivity|]. split; [exact Hk|].
    apply table_columns_uniform; assumption. }
  destruct (report_cases OLS_fit env)
    as [[e [_ Hr]] | [[capm [e [Hc [_ Hr]]]] | [capm [ff3 [Hc [Hf Hr]]]]]];
    rewrite Hr in Hin; cbn [log fst] in Hin.
  - destruct Hin.
  - destruct Hin as [Hin|[]]. left. exact (Hcapm capm Hc Hin).
  - destruct Hin as [Hin|[Hin|[Hin|Hin]]].
    + left. exact (Hcapm capm Hc Hin).
    + right. injection Hin as <- <-.
      pose proof (Hk := proj2 (ff_results_Ok _ _ Hf)).
      split; [reflexivity|]. split; [exact Hk|].
      apply table_columns_uniform; assumption.
    + discriminate Hin.
    + apply in_map_iff in Hin. destruct Hin as [s [Hs _]]. discriminate Hs.
Qed.

(** ** C4: a ticker without any quote *)

Lemma prices_empty_of_blank_column (close : DataFrame) (s : string) :
  In s (columns close) ->
  (forall r, In r (rows close) -> snd r s = None) ->
  rows (prices close) = [].
Proof.
  intros Hs Hblank. unfold prices, dropna; simpl. apply filter_false.
  intros r Hr. apply not_true_is_false. intros Hc.
  destruct (proj1 (complete_row_spec _ _) Hc s Hs) as [q Hq].
  rewrite (Hblank r Hr) in Hq. discriminate.
Qed.

Lemma monthly_returns_of_no_prices (close : DataFrame) :
  rows (prices close) = [] -> rows (monthly_returns close) = [].
Proof.
  intros H. unfold monthly_returns, monthly_prices, resample_M_last, index.
  rewrite H. reflexivity.
Qed.

Lemma loc_slice_nil {A : Type} (lo hi : option Timestamp) :
  loc_slice lo hi (@nil (Timestamp * A)) = [].
Proof. unfold loc_slice. destruct lo, hi; reflexivity. Qed.

Lemma merged_dates_have_index_return (sr : DataFrame)
    (ir : list (Timestamp * option Q)) (ff merged : DataFrame) :
  data_merged sr ir ff = Ok merged ->
  columns sr = stocks ->
  forall d, In d (index merged) -> In d (series_index ir).
Proof.
  intros H Hcs d Hd. apply data_merged_Ok in H. cbv zeta in H. subst merged.
  unfold index in Hd. apply in_map_iff in Hd. destruct Hd as [r [Hfst Hr]].
  destruct (dropna_complete _ r "IBEX" Hr) as [q Hq].
  { cbn [columns]. apply in_or_app. right. now left. }
  unfold dropna in Hr; simpl in Hr. apply filter_In in Hr. destruct Hr as [Hr _].
  apply in_map_iff in Hr. destruct Hr as [d' [<- _]].
  change (d' = d) in Hfst. subst d'.
  change (joined_row [sr; to_frame "IBEX" ir; ff] d "IBEX" = Some q) in Hq.
  simpl in Hq. rewrite Hcs in Hq. simpl in Hq.
  destruct (row_at_found (to_frame "IBEX" ir) d) as [Hnan|Hin].
  - rewrite Hnan in Hq. discriminate.
  - now rewrite index_to_frame in Hin.
Qed.

Lemma report_without_valid_stock
    (OLS_fit : list (Timestamp * option Q) -> DataFrame -> RegressionResults)
    (env : Env) :
  env_valid_stocks env = [] ->
  report OLS_fit env
  = ([Excel capm_path []; Excel ff3_path []; Figure price_plot_path []], Ok tt).
Proof.
  intros H. unfold report, capm_results, ff_results. rewrite H. reflexivity.
Qed.

(** C4 (evaluation of the code).  When some ticker column of the download
    holds no quote at all, the joint drop of incomplete rows leaves no price
    row; if the run gets past the factor file, no stock is valid, both
    result tables are written without any row and no scatter chart is
    produced, and the run ends normally. *)
Theorem ticker_without_quotes_leaves_nothing
    (to_numeric : string -> option Q)
    (OLS_fit : list (Timestamp * option Q) -> DataFrame -> RegressionResults)
    (close : DataFrame) (raw : RawFrame) (s : string) (env : Env) :
  In s (columns close) ->
  (forall r, In r (rows close) -> snd r s = None) ->
  prepare to_numeric close raw = Ok env ->
  rows (prices close) = []
  /\ env_valid_stocks env = []
  /\ main to_numeric OLS_fit close raw
     = ([Excel capm_path []; Excel ff3_path []; Figure price_plot_path []], Ok tt).
Proof.
  intros Hs Hblank H.
  pose proof (Hpx := prices_empty_of_blank_column close s Hs Hblank).
  pose proof (Hmr := monthly_returns_of_no_prices close Hpx).
  pose proof (Hp := prepare_Ok _ _ _ H).
  destruct Hp as [ff [merged [Hff [Hm [Hcols [Hvalid Henv]]]]]].
  assert (Hrows : rows merged = []).
  { pose proof (Hd := merged_dates_have_index_return _ _ _ Hm eq_refl).
    unfold sliced_index_returns in Hd. rewrite Hmr in Hd. simpl in Hd.
    rewrite loc_slice_nil in Hd.
    destruct (rows merged) as [|r rs] eqn:E; [reflexivity|].
    exfalso. apply (Hd (fst r)). unfold index. rewrite E. now left. }
  assert (Hv : env_valid_stocks env = []) by (rewrite Hvalid, Hrows; reflexivity).
  split; [exact Hpx|]. split; [exact Hv|].
  rewrite (main_prepared _ _ _ _ H). now apply report_without_valid_stock.
Qed.

(** ** C8: the date filter of the factor loader *)

Lemma rstrip_last_char (s : string) :
  match last_char (rstrip s) with
  | Some c => is_space c = false
  | None => True
  end.
Proof.
  induction s as [|a s IH]; simpl; [exact I|].
  destruct (rstrip s) as [|b t] eqn:E.
  - destruct (is_space a) eqn:Ea; simpl; auto.
  - simpl in IH |- *. exact IH.
Qed.

Lemma match_6_digits_strip (t : string) :
  match_6_digits (strip t) = six_digits (strip t).
Proof.
  pose proof (Hlast := rstrip_last_char (lstrip t)). fold (strip t) in Hlast.
  destruct (strip t) as [|a [|b [|c [|d [|e [|f rest]]]]]]; try reflexivity.
  unfold match_6_digits, six_digits.
  destruct rest as [|g rest].
  - simpl. now rewrite !andb_true_r.
  - destruct (String.eqb (String g rest) newline) eqn:En.
    + apply String.eqb_eq in En. rewrite En in Hlast. simpl in Hlast. discriminate.
    + simpl String.eqb. cbn [orb]. rewrite andb_false_r. reflexivity.
Qed.

Lemma to_datetime_Ym_Ok (s : string) (d : Timestamp) :
  to_datetime_Ym s = Ok d -> d = token_month_start s /\ day d = 1%Z.
Proof.
  unfold to_datetime_Ym, token_month_start.
  destruct s as [|a [|b [|c [|d0 [|e [|f [|g rest]]]]]]]; try discriminate.
  destruct (_ && _); [|discriminate].
  intros H. injection H as <-. split; reflexivity.
Qed.

Lemma to_month_start_first_day (d : Timestamp) : day d = 1%Z -> to_month_start d = d.
Proof. destruct d as [y m dd]; simpl. intros ->. reflexivity. Qed.

Lemma keep_YYYYMM_spec (raw : RawFrame) :
  keep_YYYYMM raw
  = map (fun r => (strip (fst r), snd r))
        (filter (fun r => six_digits (strip (fst r))) (raw_rows raw)).
Proof.
  unfold keep_YYYYMM. induction (raw_rows raw) as [|r l IH]; simpl; [reflexivity|].
  rewrite match_6_digits_strip.
  destruct (six_digits (strip (fst r))); simpl; now rewrite IH.
Qed.

Lemma ff_dated_of_valid_months (l : list (string * (string -> string))) :
  (forall r, In r l -> exists d, to_datetime_Ym (strip (fst r)) = Ok d) ->
  dates <- mapM (fun r => to_datetime_Ym (fst r))
                (map (fun r => (strip (fst r), snd r)) l) ;;
  Ok (combine (map to_month_start dates)
              (map snd (map (fun r => (strip (fst r), snd r)) l)))
  = Ok (map (fun r => (token_month_start (strip (fst r)), snd r)) l).
Proof.
  induction l as [|r l IH]; intros H; [reflexivity|].
  destruct (H r (or_introl eq_refl)) as [d Hd].
  assert (Hl : forall r', In r' l -> exists d', to_datetime_Ym (strip (fst r')) = Ok d')
    by (intros r' Hr'; apply H; now right).
  specialize (IH Hl).
  cbn [map mapM fst snd rbind]. rewrite Hd. cbn [rbind].
  destruct (mapM _ _) as [dates|e]; [|discriminate IH].
  cbn [rbind] in IH |- *. injection IH as IH.
  destruct (to_datetime_Ym_Ok _ Hd) as [Heq Hday].
  cbn [map combine]. rewrite (to_month_start_first_day _ Hday), Heq.
  now rewrite IH.
Qed.

(** C8 (amended).  Provided every token of exactly six digits names a month
    the timestamp parser accepts (last two digits 01 to 12, date within the
    timestamp range), the date filter of the factor loader succeeds and
    keeps, in file order, exactly the rows whose stripped token is six
    digits, each under the first day of the month its token names.  The
    token [202301] gives 2023-01-01; rows with the tokens [20231] and
    [2023-01] are left out without an error. *)
Theorem date_filter_keeps_six_digit_tokens (raw : RawFrame) :
  (forall r, In r (raw_rows raw) -> six_digits (strip (fst r)) = true ->
             exists d, to_datetime_Ym (strip (fst r)) = Ok d) ->
  ff_dated raw
  = Ok (map (fun r => (token_month_start (strip (fst r)), snd r))
            (filter (fun r => six_digits (strip (fst r))) (raw_rows raw)))
  /\ (forall cols cells,
        ff_dated (mkRaw cols [("202301", cells)]) = Ok [(mkDate 2023 1 1, cells)])
  /\ (forall cols cells,
        ff_dated (mkRaw cols [("20231", cells); ("2023-01", cells)]) = Ok []).
Proof.
  intros H. split; [|split; reflexivity].
  unfold ff_dated. rewrite keep_YYYYMM_spec.
  apply ff_dated_of_valid_months.
  intros r Hr. apply filter_In in Hr. destruct Hr as [Hr H6]. now apply H.
Qed.

(** ** C1: monthly returns *)

Lemma date_ltb_spec (a b : Timestamp) :
  date_ltb a b = true <->
  (year a < year b
   \/ (year a = year b
       /\ (month a < month b \/ (month a = month b /\ day a < day b))))%Z.
Proof.
  unfold date_ltb.
  rewrite !orb_true_iff, !andb_true_iff, !orb_true_iff, !andb_true_iff,
          !Z.ltb_lt, !Z.eqb_eq.
  tauto.
Qed.

Lemma date_lt_trans (a b c : Timestamp) : date_lt a b -> date_lt b c -> date_lt a c.
Proof. unfold date_lt. rewrite !date_ltb_spec. lia. Qed.

Lemma chronological_sorted (l : list Timestamp) :
  chronological l = true -> StronglySorted date_lt l.
Proof.
  intros H. apply Sorted_StronglySorted; [exact date_lt_trans|].
  induction l as [|a l IH]; [constructor|].
  destruct l as [|b l].
  - constructor; constructor.
  - simpl in H. apply andb_true_iff in H. destruct H as [Hab Hl].
    constructor; [apply IH; exact Hl | constructor; exact Hab].
Qed.

Lemma StronglySorted_filter {A : Type} (R : A -> A -> Prop) (f : A -> bool) (l : list A) :
  StronglySorted R l -> StronglySorted R (filter f l).
Proof.
  induction 1 as [|a l Hs IH Hall]; simpl; [constructor|].
  destruct (f a); [|exact IH].
  constructor; [exact IH|].
  rewrite Forall_forall in *. intros x Hx. apply filter_In in Hx. apply Hall. tauto.
Qed.

Lemma StronglySorted_map_fst {A : Type} (R : Timestamp -> Timestamp -> Prop)
    (l : list (Timestamp * A)) :
  StronglySorted R (map fst l) -> StronglySorted (fun x y => R (fst x) (fst y)) l.
Proof.
  induction l as [|a l IH]; simpl; intros H; [constructor|].
  inversion H as [|? ? Hs Hall]; subst. constructor; [now apply IH|].
  rewrite Forall_forall in *. intros x Hx. apply Hall. now apply in_map.
Qed.

Lemma last_cons {A : Type} (a d : A) (l : list A) : last (a :: l) d = last l a.
Proof.
  revert a d. induction l as [|b l IH]; intros a d; [reflexivity|].
  change (last (a :: b :: l) d) with (last (b :: l) d).
  rewrite (IH b d), (IH b a). reflexivity.
Qed.

Lemma latest_row_is_last (rs : list (Timestamp * (string -> option Q)))
    (r0 : Timestamp * (string -> option Q)) :
  StronglySorted (fun x y => date_lt (fst x) (fst y)) (r0 :: rs) ->
  latest_row (r0 :: rs) = Some (last rs r0).
Proof.
  unfold latest_row. intros H. f_equal.
  revert r0 H. induction rs as [|r rs IH]; intros r0 H; [reflexivity|].
  inversion H as [|? ? Hs Hall]; subst.
  assert (Hlt : date_ltb (fst r0) (fst r) = true).
  { rewrite Forall_forall in Hall. apply Hall. now left. }
  cbn [fold_left]. rewrite Hlt. rewrite (IH r Hs).
  symmetry. apply last_cons.
Qed.

Lemma last_valid_complete (l : list (option Q)) (x : option Q) :
  (forall y, In y (x :: l) -> exists q, y = Some q) ->
  last_valid (x :: l) = last l x.
Proof.
  revert x. induction l as [|y l IH]; intros x H.
  - simpl. destruct (H x (or_introl eq_refl)) as [q ->]. reflexivity.
  - assert (Hy : forall z, In z (y :: l) -> exists q, z = Some q)
      by (intros z Hz; apply H; now right).
    specialize (IH y Hy).
    change (last_valid (x :: y :: l))
      with (match last_valid (y :: l) with Some q => Some q | None => x end).
    rewrite IH, <- (last_cons y x l).
    destruct (Hy (last (y :: l) x)) as [q Hq].
    { destruct (@exists_last _ (y :: l)) as [l' [z Hz]]; [discriminate|].
      rewrite Hz at 1. rewrite last_last. rewrite Hz.
      apply in_or_app. right. now left. }
    rewrite Hq. reflexivity.
Qed.

Lemma last_map {A B : Type} (g : A -> B) (l : list A) (a : A) :
  last (map g l) (g a) = g (last l a).
Proof.
  revert a. induction l as [|b l IH]; intros a; [reflexivity|].
  change (map g (b :: l)) with (g b :: map g l).
  rewrite !last_cons. apply IH.
Qed.

Lemma last_In {A : Type} (l : list A) (a : A) : In (last l a) (a :: l).
Proof.
  revert a. induction l as [|b l IH]; intros a; [now left|].
  rewrite last_cons. right. apply IH.
Qed.

(** Per month and ticker, the resampled cell is the last price of the month. *)
Lemma month_cell (close : DataFrame) (m : Z) (c : string) :
  chronological (index (prices close)) = true ->
  In m (map month_ord (index (prices close))) ->
  In c (columns close) ->
  exists r,
    In r (rows (prices close))
    /\ last_valid (map (fun r => snd r c) (filter (in_month m) (rows (prices close))))
       = snd r c
    /\ last_price (prices close) m c = snd r c
    /\ exists q, snd r c = Some q.
Proof.
  intros Hchr Hm Hc.
  set (px := prices close) in *.
  assert (Hsorted : StronglySorted (fun x y => date_lt (fst x) (fst y))
                      (filter (in_month m) (rows px))).
  { apply StronglySorted_filter, StronglySorted_map_fst, chronological_sorted.
    exact Hchr. }
  assert (Hne : exists r, In r (filter (in_month m) (rows px))).
  { unfold index in Hm. rewrite map_map in Hm. apply in_map_iff in Hm.
    destruct Hm as [r [Hr Hin]]. exists r. apply filter_In. split; [exact Hin|].
    unfold in_month. now apply Z.eqb_eq. }
  unfold last_price.
  destruct (filter (in_month m) (rows px)) as [|r0 rs] eqn:EF.
  { destruct Hne as [r []]. }
  assert (Hsub : forall r, In r (r0 :: rs) -> In r (rows px)).
  { intros r Hr. rewrite <- EF in Hr. apply filter_In in Hr. tauto. }
  rewrite (latest_row_is_last Hsorted).
  exists (last rs r0).
  assert (Hlast : In (last rs r0) (rows px)) by (apply Hsub, last_In).
  split; [exact Hlast|]. split; [|split; [reflexivity|]].
  - change (map (fun r => snd r c) (r0 :: rs))
      with (snd r0 c :: map (fun r => snd r c) rs).
    rewrite last_valid_complete.
    + exact (last_map (fun r => snd r c) rs r0).
    + intros y Hy.
      change (In y (map (fun r => snd r c) (r0 :: rs))) in Hy.
      apply in_map_iff in Hy. destruct Hy as [r [<- Hr]].
      exact (dropna_complete close r c (Hsub r Hr) Hc).
  - exact (dropna_complete close _ c Hlast Hc).
Qed.

Lemma fold_min_spec (o : Z) (os : list Z) :
  In (fold_right Z.min o os) (o :: os)
  /\ forall x, In x (o :: os) -> (fold_right Z.min o os <= x)%Z.
Proof.
  induction os as [|a os [IH1 IH2]]; simpl.
  - split; [now left | intros x [<-|[]]; lia].
  - split.
    + destruct (Z.min_spec a (fold_right Z.min o os)) as [[_ ->]|[_ ->]].
      * right. now left.
      * destruct IH1 as [H|H]; [now left | right; now right].
    + intros x [<-|[<-|Hx]].
      * specialize (IH2 o (or_introl eq_refl)). lia.
      * lia.
      * specialize (IH2 x (or_intror Hx)). lia.
Qed.

Lemma fold_max_spec (o : Z) (os : list Z) :
  In (fold_right Z.max o os) (o :: os)
  /\ forall x, In x (o :: os) -> (x <= fold_right Z.max o os)%Z.
Proof.
  induction os as [|a os [IH1 IH2]]; simpl.
  - split; [now left | intros x [<-|[]]; lia].
  - split.
    + destruct (Z.max_spec a (fold_right Z.max o os)) as [[_ ->]|[_ ->]].
      * destruct IH1 as [H|H]; [now left | right; now right].
      * right. now left.
    + intros x [<-|[<-|Hx]].
      * specialize (IH2 o (or_introl eq_refl)). lia.
      * lia.
      * specialize (IH2 x (or_intror Hx)). lia.
Qed.

Lemma In_zrange (m lo : Z) (n : nat) :
  In m (zrange lo n) <-> (lo <= m < lo + Z.of_nat n)%Z.
Proof.
  revert lo. induction n as [|n IH]; intros lo; cbn [zrange In].
  - lia.
  - rewrite IH. lia.
Qed.

Lemma length_zrange (lo : Z) (n : nat) : List.length (zrange lo n) = n.
Proof. revert lo. induction n as [|n IH]; intros lo; simpl; [|rewrite IH]; reflexivity. Qed.

Lemma monthly_prices_columns (close : DataFrame) :
  columns (monthly_prices close) = columns close.
Proof.
  unfold monthly_prices, resample_M_last.
  destruct (map month_ord (index (prices close))); reflexivity.
Qed.

(** The monthly bins when the observed months are the [k + 1] months from
    [m0] on. *)
Lemma monthly_prices_rows (close : DataFrame) (m0 : Z) (k : nat) :
  observed_months (prices close) = zrange m0 (S k) ->
  rows (monthly_prices close)
  = map (fun m =>
           (month_end m,
            fun c => last_valid
                       (map (fun r => snd r c)
                            (filter (in_month m) (rows (prices close))))))
        (zrange m0 (S k)).
Proof.
  intros Hobs. unfold monthly_prices, resample_M_last.
  assert (Hin : forall m, In m (map month_ord (index (prices close)))
                          <-> (m0 <= m < m0 + Z.of_nat (S k))%Z).
  { intros m. rewrite <- In_zrange, <- Hobs. unfold observed_months.
    symmetry. apply nodup_In. }
  destruct (map month_ord (index (prices close))) as [|o os] eqn:E.
  { exfalso. destruct (proj2 (Hin m0)); lia. }
  destruct (fold_min_spec o os) as [Hmin1 Hmin2].
  destruct (fold_max_spec o os) as [Hmax1 Hmax2].
  assert (Hlo : fold_right Z.min o os = m0).
  { apply Hin in Hmin1. specialize (Hmin2 m0 (proj2 (Hin m0) ltac:(lia))). lia. }
  assert (Hhi : fold_right Z.max o os = (m0 + Z.of_nat k)%Z).
  { apply Hin in Hmax1.
    specialize (Hmax2 (m0 + Z.of_nat k)%Z (proj2 (Hin (m0 + Z.of_nat k)%Z) ltac:(lia))).
    lia. }
  cbn [rows]. rewrite Hlo, Hhi.
  replace (Z.to_nat (m0 + Z.of_nat k - m0)) with k by lia. reflexivity.
Qed.

Lemma Qeq_bool_false (q : Q) : ~ (q == 0)%Q -> Qeq_bool q 0 = false.
Proof.
  intros H. destruct (Qeq_bool q 0) eqn:E; [|reflexivity].
  apply Qeq_bool_iff in E. contradiction.
Qed.

Lemma simple_return (p q : Q) : ~ (p == 0)%Q -> (q / p - 1 == (q - p) / p)%Q.
Proof. intros H. field. exact H. Qed.

(** Percent change over consecutive monthly bins, started from the cells
    [prev] of the month before. *)
Lemma pct_consecutive (px : DataFrame) (Lr : Z -> string -> option Q) (k : nat) :
  forall (b : Z) (prev : string -> option Q),
    (forall c, In c (columns px) ->
       exists q, prev c = Some q /\ last_price px b c = Some q /\ ~ (q == 0)%Q) ->
    (forall m c, (b < m <= b + Z.of_nat k)%Z -> In c (columns px) ->
       exists q, Lr m c = Some q /\ last_price px m c = Some q /\ ~ (q == 0)%Q) ->
    let M := map (fun m => (month_end m, Lr m)) (zrange (b + 1) k) in
    Forall2 (is_return_entry px) (zrange (b + 1) k)
      (map (fun r => (to_month_start (fst r), snd r))
         (filter (complete_row (columns px))
            (zip_rows (fun x y => cell_sub (cell_div x y) (Some 1%Q))
               (ffill_rows prev M) (shift_rows prev (ffill_rows prev M))))).
Proof.
  induction k as [|k IH]; intros b prev Hprev Hcur M; [constructor|].
  subst M. cbn [zrange map ffill_rows shift_rows zip_rows filter].
  assert (Hkeep : complete_row (columns px)
                    (month_end (b + 1),
                     fun c => cell_sub
                                (cell_div
                                   match Lr (b + 1)%Z c with
                                   | Some q => Some q
                                   | None => prev c
                                   end (prev c))
                                (Some 1%Q)) = true).
  { apply complete_row_spec. intros c Hc. cbn [snd].
    destruct (Hcur (b + 1)%Z c ltac:(lia) Hc) as [q [-> _]].
    destruct (Hprev c Hc) as [p [-> [_ Hp]]].
    unfold cell_div. rewrite (Qeq_bool_false Hp). simpl. eauto. }
  rewrite Hkeep. cbn [map fst snd]. constructor.
  - split; [reflexivity|]. intros c Hc. cbn [snd].
    destruct (Hcur (b + 1)%Z c ltac:(lia) Hc) as [q [Hq [Hlq _]]].
    destruct (Hprev c Hc) as [p [Hp [Hlp Hp0]]].
    exists p, q, (q / p - 1)%Q.
    replace (b + 1 - 1)%Z with b by lia.
    split; [exact Hlp|]. split; [exact Hlq|]. split.
    + rewrite Hq, Hp. unfold cell_div. rewrite (Qeq_bool_false Hp0). reflexivity.
    + now apply simple_return.
  - apply (IH (b + 1)%Z
             (fun c => match Lr (b + 1)%Z c with Some q => Some q | None => prev c end)).
    + intros c Hc. destruct (Hcur (b + 1)%Z c ltac:(lia) Hc) as [q [H1 [H2 H3]]].
      exists q. rewrite H1. auto.
    + intros m c Hm Hc. apply Hcur; [lia | exact Hc].
Qed.

(** C1 (amended).  When the days on which every ticker is quoted are in date
    order, carry non-zero prices and fall in [n] consecutive calendar months
    (no month without an observation in between), the monthly return series
    has exactly [n - 1] entries, one for each observed month but the first,
    in order; the entry of month [m] is labelled by the first day of [m] and
    equals, for every ticker, (last price of [m] - last price of [m - 1]) /
    (last price of [m - 1]).  With fewer than two observed months the series
    is empty. *)
Theorem monthly_returns_of_consecutive_months (close : DataFrame) (m0 : Z) (n : nat) :
  columns close <> [] ->
  chronological (index (prices close)) = true ->
  nonzero_prices (prices close) = true ->
  observed_months (prices close) = zrange m0 n ->
  Forall2 (is_return_entry (prices close)) (zrange (m0 + 1) (n - 1))
          (rows (monthly_returns close))
  /\ List.length (rows (monthly_returns close))
     = List.length (observed_months (prices close)) - 1
  /\ (n < 2 -> rows (monthly_returns close) = []).
Proof.
  intros Hcols Hchr Hnzb Hobs.
  assert (Hnz : forall r c q, In r (rows (prices close)) -> In c (columns close) ->
                              snd r c = Some q -> ~ (q == 0)%Q).
  { intros r c q Hr Hc Hq H0. unfold nonzero_prices in Hnzb.
    rewrite forallb_forall in Hnzb. specialize (Hnzb r Hr).
    rewrite forallb_forall in Hnzb. specialize (Hnzb c Hc).
    rewrite Hq in Hnzb. apply Qeq_bool_iff in H0. rewrite H0 in Hnzb. discriminate. }
  assert (Hmain : Forall2 (is_return_entry (prices close)) (zrange (m0 + 1) (n - 1))
                    (rows (monthly_returns close))).
  { destruct n as [|k].
    - (* no observation at all *)
      assert (Hidx : map month_ord (index (prices close)) = []).
      { destruct (map month_ord (index (prices close))) as [|o os] eqn:E; [reflexivity|].
        assert (Ho : In o (observed_months (prices close))).
        { unfold observed_months. apply nodup_In. rewrite E. now left. }
        rewrite Hobs in Ho. destruct Ho. }
      assert (Hrows : rows (prices close) = []).
      { unfold index in Hidx. destruct (rows (prices close)); [reflexivity | discriminate]. }
      rewrite (monthly_returns_of_no_prices close Hrows). constructor.
    - replace (S k - 1) with k by lia.
      assert (Hin : forall m, (m0 <= m < m0 + Z.of_nat (S k))%Z ->
                 In m (map month_ord (index (prices close)))).
      { intros m Hm. apply (nodup_In Z.eq_dec). fold (observed_months (prices close)).
        rewrite Hobs. apply In_zrange. exact Hm. }
      assert (Hcell : forall m c, (m0 <= m < m0 + Z.of_nat (S k))%Z ->
                 In c (columns close) ->
                 exists q,
                   last_valid (map (fun r => snd r c)
                                 (filter (in_month m) (rows (prices close)))) = Some q
                   /\ last_price (prices close) m c = Some q /\ ~ (q == 0)%Q).
      { intros m c Hm Hc.
        destruct (month_cell close m c Hchr (Hin m Hm) Hc) as [r [Hr [H1 [H2 [q Hq]]]]].
        exists q. rewrite H1, H2. repeat split; auto. exact (Hnz r c q Hr Hc Hq). }
      unfold monthly_returns, relabel_month_start, dropna, pct_change, ffill, shift.
      cbn [rows columns].
      rewrite (monthly_prices_rows close Hobs), monthly_prices_columns.
      cbn [zrange map ffill_rows shift_rows zip_rows filter].
      assert (Hdrop : complete_row (columns close)
                        (month_end m0,
                         fun c => cell_sub
                                    (cell_div
                                       match last_valid
                                               (map (fun r => snd r c)
                                                  (filter (in_month m0)
                                                     (rows (prices close)))) with
                                       | Some q => Some q
                                       | None => nan_row c
                                       end (nan_row c))
                                    (Some 1%Q))
                      = false).
      { destruct (columns close) as [|c0 cs]; [congruence|].
        unfold complete_row. cbn [forallb snd nan_row].
        destruct (last_valid _); reflexivity. }
      rewrite Hdrop.
      apply (pct_consecutive (prices close)
               (fun m c => last_valid (map (fun r => snd r c)
                                         (filter (in_month m) (rows (prices close)))))).
      + intros c Hc. destruct (Hcell m0 c ltac:(lia) Hc) as [q [H1 [H2 H3]]].
        exists q. rewrite H1. auto.
      + intros m c Hm Hc. apply Hcell; [lia | exact Hc]. }
  split; [exact Hmain|]. split.
  - apply Forall2_length in Hmain. rewrite <- Hmain, Hobs, !length_zrange. reflexivity.
  - intros Hn. replace (n - 1) with 0 in Hmain by lia.
    destruct (rows (monthly_returns close)); [reflexivity | inversion Hmain].
Qed.

(** ** C2: the constant regressor *)

Lemma date_ltb_irrefl (d : Timestamp) : date_ltb d d = false.
Proof.
  destruct (date_ltb d d) eqn:E; [|reflexivity].
  apply date_ltb_spec in E. lia.
Qed.

Lemma lookup_absent (key : string) (l : list (string * option Q)) :
  ~ In key (map fst l) -> lookup key l = Raise (KeyError key).
Proof.
  induction l as [|[k v] l IH]; simpl; intros H; [reflexivity|].
  destruct (String.eqb key k) eqn:E.
  - apply String.eqb_eq in E. subst k. tauto.
  - apply IH. tauto.
Qed.

Lemma lookup_present (key : string) (l : list (string * option Q)) :
  In key (map fst l) -> exists v, lookup key l = Ok v.
Proof.
  induction l as [|[k v] l IH]; simpl; intros H; [destruct H|].
  destruct (String.eqb key k) eqn:E; [eauto|].
  destruct H as [H|H]; [|auto].
  subst k. rewrite String.eqb_refl in E. discriminate.
Qed.

Lemma mapM_total {A B : Type} (f : A -> result B) (l : list A) :
  (forall a, In a l -> exists b, f a = Ok b) -> exists bs, mapM f l = Ok bs.
Proof.
  induction l as [|a l IH]; intros H; simpl; [eauto|].
  destruct (H a (or_introl eq_refl)) as [b ->].
  destruct IH as [bs ->]; [intros x Hx; apply H; now right|].
  simpl. eauto.
Qed.

(** The design of the three-factor regression over a panel of one row whose
    index excess return is not zero: [add_constant] adds nothing. *)
Lemma ff_design_one_row (d : Timestamp) (q : Q) (smb hml : option Q) :
  ~ (q == 0)%Q ->
  exists X,
    ff_design [(d, Some q)] [(d, smb)] [(d, hml)] = Ok X
    /\ columns X = ["EX_IBEX"; "SMB"; "HML"].
Proof.
  intros Hq. unfold ff_design.
  rewrite concat_axis1_unique by (intros f [<-|[<-|[<-|[]]]]; reflexivity).
  cbn [rbind]. unfold add_constant.
  assert (Hu : union_index [d; d; d] = [d]).
  { unfold union_index. cbn [fold_right insert_date].
    rewrite date_ltb_irrefl, date_eqb_refl. cbn [insert_date].
    rewrite date_ltb_irrefl, date_eqb_refl. reflexivity. }
  assert (Hcell : row_at (to_frame "EX_IBEX" [(d, Some q)]) d "EX_IBEX" = Some q).
  { unfold row_at, to_frame. cbn [rows map find fst snd]. rewrite date_eqb_refl.
    reflexivity. }
  assert (Hconst :
    existsb
      (fun c =>
         is_nonzero_const
           (column_values
              (mkFrame
                 (flat_map columns
                    [to_frame "EX_IBEX" [(d, Some q)]; to_frame "SMB" [(d, smb)];
                     to_frame "HML" [(d, hml)]])
                 (map (fun d0 =>
                         (d0, joined_row
                                [to_frame "EX_IBEX" [(d, Some q)];
                                 to_frame "SMB" [(d, smb)];
                                 to_frame "HML" [(d, hml)]] d0))
                    (union_index
                       (flat_map index
                          [to_frame "EX_IBEX" [(d, Some q)];
                           to_frame "SMB" [(d, smb)];
                           to_frame "HML" [(d, hml)]])))) c))
      (flat_map columns
         [to_frame "EX_IBEX" [(d, Some q)]; to_frame "SMB" [(d, smb)];
          to_frame "HML" [(d, hml)]]) = true).
  { apply existsb_exists. exists "EX_IBEX". split; [simpl; tauto|].
    change (flat_map index
              [to_frame "EX_IBEX" [(d, Some q)]; to_frame "SMB" [(d, smb)];
               to_frame "HML" [(d, hml)]]) with [d; d; d].
    rewrite Hu. unfold column_values. cbn [rows map snd].
    change (joined_row
              [to_frame "EX_IBEX" [(d, Some q)]; to_frame "SMB" [(d, smb)];
               to_frame "HML" [(d, hml)]] d "EX_IBEX")
      with (row_at (to_frame "EX_IBEX" [(d, Some q)]) d "EX_IBEX").
    rewrite Hcell. unfold is_nonzero_const. cbn [forallb andb].
    now rewrite (Qeq_bool_false Hq). }
  cbn [columns]. rewrite Hconst.
  eexists. split; reflexivity.
Qed.

(** C2 (evaluation of the code).  Let the least-squares routine name its
    parameters and t-values after the columns of the design it is given.
    When the merged panel has a single row and the index excess return of
    that month is not zero, the three-factor design has no [const] column
    ([add_constant] leaves a design with a constant non-zero column as it
    is): the CAPM file is written, then the run stops with [KeyError] on
    [const] before the three-factor file is written. *)
Theorem one_row_panel_drops_the_constant
    (to_numeric : string -> option Q)
    (OLS_fit : list (Timestamp * option Q) -> DataFrame -> RegressionResults)
    (close : DataFrame) (raw : RawFrame) (env : Env)
    (r : Timestamp * (string -> option Q)) (q : Q) :
  (forall y X, map fst (params (OLS_fit y X)) = columns X) ->
  (forall y X, map fst (tvalues (OLS_fit y X)) = columns X) ->
  prepare to_numeric close raw = Ok env ->
  rows (env_data_merged env) = [r] ->
  cell_sub (snd r "IBEX") (snd r "RF") = Some q ->
  ~ (q == 0)%Q ->
  (exists X,
     ff_design (env_excess_ibex env) (env_SMB env) (env_HML env) = Ok X
     /\ columns X = ["EX_IBEX"; "SMB"; "HML"])
  /\ exists capm,
       main to_numeric OLS_fit close raw
       = ([Excel capm_path capm], Raise (KeyError "const")).
Proof.
  intros Hpar Htv H Hrows Hx Hq.
  pose proof (Hp := prepare_Ok _ _ _ H).
  destruct Hp as [ff [merged [Hff [Hm [Hcols [Hvalid Henv]]]]]].
  assert (Hmerged : rows merged = [r]).
  { rewrite Henv in Hrows. exact Hrows. }
  assert (Hv : env_valid_stocks env = stocks).
  { rewrite Hvalid, Hmerged. reflexivity. }
  assert (Hib : env_excess_ibex env = [(fst r, Some q)]).
  { rewrite Henv. cbn [env_excess_ibex]. rewrite Hmerged. cbn [map]. now rewrite Hx. }
  assert (Hsmb : env_SMB env = [(fst r, snd r "SMB")]).
  { rewrite Henv. cbn [env_SMB]. now rewrite Hmerged. }
  assert (Hhml : env_HML env = [(fst r, snd r "HML")]).
  { rewrite Henv. cbn [env_HML]. now rewrite Hmerged. }
  destruct (ff_design_one_row (fst r) (snd r "SMB") (snd r "HML") Hq) as [X [HX HXc]].
  rewrite Hib, Hsmb, Hhml.
  split; [exists X; split; assumption|].
  assert (Hy : forall s, In s stocks ->
             exists y, getcol (env_excess_stock_returns env) s = Ok y).
  { intros s Hs. eexists. apply getcol_In. rewrite Henv.
    cbn [env_excess_stock_returns columns]. now rewrite Hv. }
  assert (Hcapm : exists capm, capm_results OLS_fit env = Ok capm).
  { unfold capm_results. apply mapM_total. rewrite Hv. intros s Hs.
    destruct (Hy s Hs) as [y ->]. cbn [rbind]. unfold capm_record.
    destruct (lookup_present "const" (params (OLS_fit y (capm_design (env_excess_ibex env)))))
      as [a ->]; [rewrite Hpar; simpl; tauto|].
    destruct (lookup_present "IBEX" (params (OLS_fit y (capm_design (env_excess_ibex env)))))
      as [b ->]; [rewrite Hpar; simpl; tauto|].
    destruct (lookup_present "const" (tvalues (OLS_fit y (capm_design (env_excess_ibex env)))))
      as [ta ->]; [rewrite Htv; simpl; tauto|].
    destruct (lookup_present "IBEX" (tvalues (OLS_fit y (capm_design (env_excess_ibex env)))))
      as [tb ->]; [rewrite Htv; simpl; tauto|].
    cbn [rbind]. eauto. }
  assert (Hff3 : ff_results OLS_fit env = Raise (KeyError "const")).
  { unfold ff_results. rewrite Hv. unfold stocks. cbn [mapM].
    destruct (Hy "BKT.MC") as [y ->]; [unfold stocks; now left|].
    cbn [rbind]. rewrite Hib, Hsmb, Hhml, HX. cbn [rbind].
    unfold ff_record. rewrite lookup_absent; [reflexivity|].
    rewrite Hpar, HXc. simpl. intuition discriminate. }
  destruct Hcapm as [capm Hcapm]. exists capm.
  rewrite (main_prepared _ _ _ _ H).
  unfold report. rewrite Hcapm, Hff3. reflexivity.
Qed.


(** ** The CAPM fit of a stock that moves twice the index *)

Lemma count_cons {A : Type} (x : A) (l : list A) : (count (x :: l) == count l + 1)%Q.
Proof.
  unfold count. cbn [List.length]. rewrite Nat2Z.inj_succ. unfold Z.succ.
  rewrite inject_Z_plus. reflexivity.
Qed.

Lemma normal_equation_const (y : list (Timestamp * option Q))
    (pts : list (Timestamp * Q)) (a b : Q) :
  twice_the_index y pts ->
  (dot (map num (column_values (capm_design (as_series pts)) "const"))
       (residuals y (rows (capm_design (as_series pts)))
                  [("const", Some a); ("IBEX", Some b)])
   == (2 - b) * sum_x pts - a * count pts)%Q.
Proof.
  induction 1 as [|e p y' pts' [v [Hv Hvx]] _ IH].
  - unfold dot, sum_x, count, qsum. simpl. ring.
  - destruct e as [d ev]. cbn [snd] in Hv. subst ev.
    rewrite count_cons. twice_step IH Hvx.
Qed.

Lemma normal_equation_ibex (y : list (Timestamp * option Q))
    (pts : list (Timestamp * Q)) (a b : Q) :
  twice_the_index y pts ->
  (dot (map num (column_values (capm_design (as_series pts)) "IBEX"))
       (residuals y (rows (capm_design (as_series pts)))
                  [("const", Some a); ("IBEX", Some b)])
   == (2 - b) * sum_xx pts - a * sum_x pts)%Q.
Proof.
  induction 1 as [|e p y' pts' [v [Hv Hvx]] _ IH].
  - unfold dot, sum_x, sum_xx, qsum. simpl. ring.
  - destruct e as [d ev]. cbn [snd] in Hv. subst ev. twice_step IH Hvx.
Qed.

Lemma residuals_vanish (y : list (Timestamp * option Q))
    (pts : list (Timestamp * Q)) (a b : Q) :
  twice_the_index y pts -> (a == 0)%Q -> (b == 2)%Q ->
  (ssr y (capm_design (as_series pts)) [("const", Some a); ("IBEX", Some b)] == 0)%Q.
Proof.
  intros H Ha Hb. induction H as [|e p y' pts' [v [Hv Hvx]] _ IH].
  - reflexivity.
  - destruct e as [d ev]. cbn [snd] in Hv. subst ev.
    unfold sum_x, sum_xx, dot, column_values, as_series, capm_design, qsum, ssr in *.
    simpl in IH |- *. unfold predict, qsum in *. simpl in IH |- *.
    rewrite IH, Hvx, Ha, Hb. ring.
Qed.

Lemma tss_of_twice_the_index (y : list (Timestamp * option Q))
    (pts : list (Timestamp * Q)) (m : Q) :
  twice_the_index y pts ->
  (qsum (map (fun e => (num (snd e) - m) * (num (snd e) - m)) y)
   == 4 * sum_xx pts - 4 * m * sum_x pts + count pts * (m * m))%Q.
Proof.
  induction 1 as [|e p y' pts' [v [Hv Hvx]] _ IH].
  - unfold sum_x, sum_xx, count, qsum. simpl. ring.
  - destruct e as [d ev]. cbn [snd] in Hv. subst ev.
    rewrite count_cons. twice_step IH Hvx.
Qed.

Lemma sum_of_twice_the_index (y : list (Timestamp * option Q))
    (pts : list (Timestamp * Q)) :
  twice_the_index y pts ->
  (qsum (map (fun e => num (snd e)) y) == 2 * sum_x pts)%Q.
Proof.
  induction 1 as [|e p y' pts' [v [Hv Hvx]] _ IH].
  - reflexivity.
  - destruct e as [d ev]. cbn [snd] in Hv. subst ev. twice_step IH Hvx.
Qed.

Lemma count_of_twice_the_index (y : list (Timestamp * option Q))
    (pts : list (Timestamp * Q)) :
  twice_the_index y pts -> count y = count pts.
Proof. intros H. unfold count. now rewrite (Forall2_length H). Qed.



Lemma count_nonneg {A : Type} (l : list A) : (0 <= count l)%Q.
Proof.
  unfold count. change 0%Q with (inject_Z 0). rewrite <- Zle_Qle. apply Nat2Z.is_nonneg.
Qed.

Lemma index_varies_count (pts : list (Timestamp * Q)) :
  index_varies pts -> ~ (count pts == 0)%Q.
Proof.
  intros Hv H0. apply Hv. destruct pts as [|p pts].
  - unfold count, sum_x, sum_xx, qsum. simpl. ring.
  - rewrite count_cons in H0. pose proof (count_nonneg pts). lra.
Qed.

Lemma tss_of_varying_index (y : list (Timestamp * option Q))
    (pts : list (Timestamp * Q)) :
  twice_the_index y pts -> index_varies pts -> ~ (centered_tss y == 0)%Q.
Proof.
  intros Hy Hv Htss. pose proof (Hn := index_varies_count Hv). apply Hv.
  unfold centered_tss in Htss.
  rewrite (tss_of_twice_the_index _ Hy) in Htss.
  rewrite (count_of_twice_the_index Hy) in Htss.
  rewrite (sum_of_twice_the_index Hy) in Htss.
  assert (H4 : (4 * (count pts * sum_xx pts - sum_x pts * sum_x pts)
                == count pts * (4 * sum_xx pts
                                - 4 * (2 * sum_x pts / count pts) * sum_x pts
                                + count pts * (2 * sum_x pts / count pts
                                               * (2 * sum_x pts / count pts))))%Q).
  { field. exact Hn. }
  rewrite Htss in H4. lra.
Qed.

(** X13.  The CAPM record of a stock whose excess return is, in every row
    of the panel, twice the index excess return, the latter not being
    constant: for any least-squares fit of the CAPM design, Alpha is 0,
    Beta_IBEX is 2 and R2 is 1 (in exact arithmetic). *)
Lemma capm_of_twice_the_index
    (OLS_fit : list (Timestamp * option Q) -> DataFrame -> RegressionResults)
    (s : string) (y : list (Timestamp * option Q)) (pts : list (Timestamp * Q)) :
  twice_the_index y pts ->
  index_varies pts ->
  least_squares y (capm_design (as_series pts))
                (OLS_fit y (capm_design (as_series pts))) ->
  exists a b ta tb r2,
    capm_record s (OLS_fit y (capm_design (as_series pts)))
    = Ok [("Stock", VStr s); ("Alpha", VNum (Some a)); ("Beta_IBEX", VNum (Some b));
          ("Alpha_t", VNum ta); ("Beta_t", VNum tb); ("R2", VNum (Some r2))]
    /\ (a == 0)%Q /\ (b == 2)%Q /\ (r2 == 1)%Q.
Proof.
  intros Hy Hv (Hnames & Htn & Hsome & Hne & Hr2).
  pose proof (Hn := index_varies_count Hv).
  destruct (Hr2 (tss_of_varying_index Hy Hv)) as [r2 [Hr Hr2eq]].
  set (m := OLS_fit y (capm_design (as_series pts))) in *.
  destruct (params m) as [|[k1 v1] [|[k2 v2] [|]]] eqn:Ep; try discriminate Hnames.
  cbn [map fst columns capm_design] in Hnames. injection Hnames as -> ->.
  destruct v1 as [a|]; [|exfalso; apply (Hsome ("const", None)); [now left | reflexivity]].
  destruct v2 as [b|];
    [|exfalso; apply (Hsome ("IBEX", None)); [right; now left | reflexivity]].
  destruct (tvalues m) as [|[k3 ta] [|[k4 tb] [|]]] eqn:Et; try discriminate Htn.
  cbn [map fst columns capm_design] in Htn. injection Htn as -> ->.
  pose proof (E1 := Hne "const" ltac:(simpl; tauto)).
  pose proof (E2 := Hne "IBEX" ltac:(simpl; tauto)).
  rewrite (normal_equation_const a b Hy) in E1.
  rewrite (normal_equation_ibex a b Hy) in E2.
  assert (Hb : (b == 2)%Q).
  { assert (Hprod : ((2 - b) * (count pts * sum_xx pts - sum_x pts * sum_x pts) == 0)%Q).
    { setoid_replace ((2 - b) * (count pts * sum_xx pts - sum_x pts * sum_x pts))%Q
        with (count pts * ((2 - b) * sum_xx pts - a * sum_x pts)
              - sum_x pts * ((2 - b) * sum_x pts - a * count pts))%Q by ring.
      rewrite E1, E2. ring. }
    apply Qmult_integral in Hprod. destruct Hprod as [H|H]; [lra | contradiction]. }
  assert (Ha : (a == 0)%Q).
  { rewrite Hb in E1.
    assert (Hprod : (a * count pts == 0)%Q) by lra.
    apply Qmult_integral in Hprod. destruct Hprod as [H|H]; [exact H | contradiction]. }
  exists a, b, ta, tb, r2. split; [|split; [exact Ha|split; [exact Hb|]]].
  - unfold capm_record. rewrite Ep, Et, Hr. reflexivity.
  - rewrite Hr2eq, (residuals_vanish Hy Ha Hb). field.
    exact (tss_of_varying_index Hy Hv).
Qed.

(** * Runs on the sample data *)

Lemma OLS_exact_param_names (y : list (Timestamp * option Q)) (X : DataFrame) :
  map fst (params (OLS_exact y X)) = columns X.
Proof.
  unfold OLS_exact. cbn [params]. unfold solve.
  set (f := fun j : nat => _). set (g := fun q : Q => _).
  assert (H : List.length (map g (map f (seq 0 (List.length (columns X)))))
              = List.length (columns X)).
  { now rewrite !length_map, length_seq. }
  revert H. generalize (map g (map f (seq 0 (List.length (columns X))))).
  induction (columns X) as [|c cs IH]; intros l H; [reflexivity|].
  destruct l as [|v l]; [discriminate|]. simpl. f_equal. apply IH. now injection H.
Qed.

Lemma OLS_exact_tvalue_names (y : list (Timestamp * option Q)) (X : DataFrame) :
  map fst (tvalues (OLS_exact y X)) = columns X.
Proof.
  unfold OLS_exact. cbn [tvalues]. rewrite map_map. apply map_id.
Qed.

(** C1, counterexample: with observations in January, February and April
    (three observed months) the series has three entries, not two, one of
    them for March, a month without any observation. *)
Lemma monthly_returns_gap_month :
  List.length (observed_months (prices close_gap)) = 3
  /\ index (monthly_returns close_gap)
     = [mkDate 2023 2 1; mkDate 2023 3 1; mkDate 2023 4 1]
  /\ List.length (rows (monthly_returns close_gap))
     <> List.length (observed_months (prices close_gap)) - 1.
Proof.
  split; [vm_compute; reflexivity|]. split; [vm_compute; reflexivity|].
  vm_compute. discriminate.
Qed.

(** C1, witness: four consecutive observed months. *)
Lemma monthly_returns_of_consecutive_months_witness :
  Forall2 (is_return_entry (prices close_4m)) (zrange (24276 + 1) (4 - 1))
          (rows (monthly_returns close_4m))
  /\ List.length (rows (monthly_returns close_4m))
     = List.length (observed_months (prices close_4m)) - 1
  /\ (4 < 2 -> rows (monthly_returns close_4m) = []).
Proof.
  apply (monthly_returns_of_consecutive_months close_4m 24276 4).
  - discriminate.
  - vm_compute. reflexivity.
  - vm_compute. reflexivity.
  - vm_compute. reflexivity.
Defined.

(** C3, witness. *)
Lemma merged_panel_rows_complete_witness :
  exists panel,
    data_merged returns_2023 ibex_2023 ff_table_2023 = Ok panel
    /\ columns panel = columns returns_2023 ++ "IBEX" :: columns ff_table_2023
    /\ (forall r c, In r (rows panel) -> In c (columns panel) ->
                    exists q, snd r c = Some q)
    /\ (forall d c,
          In c (columns panel) ->
          joined_row [returns_2023; to_frame "IBEX" ibex_2023; ff_table_2023] d c = None ->
          ~ In d (index panel)).
Proof.
  destruct (is_ok_inv (data_merged returns_2023 ibex_2023 ff_table_2023))
    as [panel E]; [vm_compute; reflexivity|].
  exists panel. split; [exact E|].
  exact (merged_panel_rows_complete returns_2023 ibex_2023 ff_table_2023 E).
Defined.

(** C7, witness: returns of 2023 against factors of 2019. *)
Lemma merged_panel_empty_when_disjoint_witness :
  exists panel,
    data_merged returns_2023 ibex_2023 ff_table_2019 = Ok panel /\ rows panel = [].
Proof.
  apply merged_panel_empty_when_disjoint; try reflexivity.
  intros d Hd. vm_compute in Hd. vm_compute.
  intuition (subst; discriminate).
Defined.

(** C10, witness. *)
Lemma prices_filtered_jointly_witness :
  exists s,
    getcol (prices close_2_missing) "BKT.MC" = Ok s
    /\ series_dropna s = s
    /\ series_index s = index (prices close_2_missing)
    /\ (forall d,
          (forall r, In r (rows close_2_missing) -> fst r = d ->
                     exists u, In u (columns close_2_missing) /\ snd r u = None) ->
          ~ In d (series_index s)).
Proof.
  destruct (is_ok_inv (getcol (prices close_2_missing) "BKT.MC"))
    as [s E]; [vm_compute; reflexivity|].
  exists s. split; [exact E|].
  exact (prices_filtered_jointly close_2_missing "BKT.MC" E).
Defined.

(** C9, witness: a run with a non-empty panel. *)
Lemma valid_stocks_all_or_none_witness :
  exists env,
    prepare parse_decimal close_4m factors_2023 = Ok env
    /\ (forall r s, In r (rows (env_excess_stock_returns env)) ->
                    In s (columns (env_excess_stock_returns env)) ->
                    exists q, snd r s = Some q)
    /\ (rows (env_data_merged env) <> [] -> env_valid_stocks env = stocks)
    /\ (rows (env_data_merged env) = [] -> env_valid_stocks env = []).
Proof.
  destruct (is_ok_inv (prepare parse_decimal close_4m factors_2023))
    as [env E]; [vm_compute; reflexivity|].
  exists env. split; [exact E|].
  exact (valid_stocks_all_or_none parse_decimal close_4m factors_2023 E).
Defined.

(** C6, witness. *)
Lemma tables_and_charts_follow_valid_stocks_witness :
  exists env,
    prepare parse_decimal close_4m factors_2023 = Ok env
    /\ forall path table,
         In (Excel path table) (log (main parse_decimal OLS_exact close_4m factors_2023)) ->
         map (get_field "Stock") table
         = map (fun s => Some (VStr s)) (env_valid_stocks env).
Proof.
  destruct (is_ok_inv (prepare parse_decimal close_4m factors_2023))
    as [env E]; [vm_compute; reflexivity|].
  exists env. split; [exact E|].
  exact (proj1 (proj2 (tables_and_charts_follow_valid_stocks
                         parse_decimal OLS_exact close_4m factors_2023 E))).
Defined.

(** C5, counterexample: the three-factor file written for the sample data
    has a row for each of the five stocks and no t-statistic column. *)
Lemma ff3_file_has_no_t_columns :
  exists table,
    In (Excel ff3_path table)
       (log (main parse_decimal OLS_exact close_4m factors_2023))
    /\ map (get_field "Stock") table = map (fun s => Some (VStr s)) stocks
    /\ table_columns table
       = ["Stock"; "Alpha"; "Beta_IBEX"; "SMB_coef"; "HML_coef"; "R2"]
    /\ ~ In "Alpha_t" (table_columns table)
    /\ ~ In "Beta_t" (table_columns table).
Proof.
  assert (H : exists table,
             nth_error (log (main parse_decimal OLS_exact close_4m factors_2023)) 1
             = Some (Excel ff3_path table)
             /\ map (get_field "Stock") table = map (fun s => Some (VStr s)) stocks
             /\ table_columns table
                = ["Stock"; "Alpha"; "Beta_IBEX"; "SMB_coef"; "HML_coef"; "R2"]).
  { eexists. split; [vm_compute; reflexivity|]. split; vm_compute; reflexivity. }
  destruct H as [table [Hnth [Hstock Hcols]]]. exists table.
  split; [exact (nth_error_In _ _ Hnth)|]. split; [exact Hstock|]. split; [exact Hcols|].
  rewrite Hcols. split; simpl; intuition discriminate.
Qed.

(** C5, witness. *)
Lemma result_file_columns_witness :
  exists path table,
    In (Excel path table)
       (log (main parse_decimal OLS_exact close_4m factors_2023))
    /\ table <> []
    /\ path = ff3_path
    /\ table_columns table
       = ["Stock"; "Alpha"; "Beta_IBEX"; "SMB_coef"; "HML_coef"; "R2"].
Proof.
  assert (Hcheck :
    match nth_error (log (main parse_decimal OLS_exact close_4m factors_2023)) 1 with
    | Some (Excel p t) => String.eqb p ff3_path && negb (empty t)
    | _ => false
    end = true) by (vm_compute; reflexivity).
  destruct (nth_error (log (main parse_decimal OLS_exact close_4m factors_2023)) 1)
    as [[p t|p t]|] eqn:Hnth; try discriminate Hcheck.
  apply andb_true_iff in Hcheck. destruct Hcheck as [Hp Ht].
  apply String.eqb_eq in Hp.
  assert (Hne : t <> []) by (destruct t; [discriminate Ht | discriminate]).
  pose proof (Hin := nth_error_In _ _ Hnth).
  exists p, t. split; [exact Hin|]. split; [exact Hne|]. split; [exact Hp|].
  destruct (@result_file_columns parse_decimal OLS_exact close_4m factors_2023
              p t Hin Hne) as [[Hc _]|[_ [_ Hc]]].
  - exfalso. rewrite Hp in Hc. vm_compute in Hc. discriminate Hc.
  - exact Hc.
Defined.

(** C4, witness: [ENG.MC] and [COL.MC] carry no quote. *)
Lemma ticker_without_quotes_leaves_nothing_witness :
  exists env,
    prepare parse_decimal close_2_missing factors_2023 = Ok env
    /\ rows (prices close_2_missing) = []
    /\ env_valid_stocks env = []
    /\ main parse_decimal OLS_exact close_2_missing factors_2023
       = ([Excel capm_path []; Excel ff3_path []; Figure price_plot_path []], Ok tt).
Proof.
  destruct (is_ok_inv (prepare parse_decimal close_2_missing factors_2023))
    as [env E]; [vm_compute; reflexivity|].
  exists env. split; [exact E|].
  apply (ticker_without_quotes_leaves_nothing parse_decimal OLS_exact
           close_2_missing factors_2023 "ENG.MC").
  - simpl. tauto.
  - intros r Hr. simpl in Hr.
    destruct Hr as [<-|[<-|[<-|[<-|[]]]]]; reflexivity.
  - exact E.
Defined.

(** C8, counterexample: the six-digit token [202313] does not name a month;
    the loader raises and no row is retained. *)
Lemma six_digit_token_without_month_raises :
  six_digits (strip "202313") = true
  /\ ff_dated factors_bad_month = Raise (ValueError "202313")
  /\ load_factors parse_decimal factors_bad_month = Raise (ValueError "202313").
Proof. repeat split; vm_compute; reflexivity. Qed.

(** C8, witness: the sample factor file, monthly rows followed by an annual
    section. *)
Lemma date_filter_keeps_six_digit_tokens_witness :
  ff_dated factors_2023
  = Ok (map (fun r => (token_month_start (strip (fst r)), snd r))
            (filter (fun r => six_digits (strip (fst r))) (raw_rows factors_2023)))
  /\ (forall cols cells,
        ff_dated (mkRaw cols [("202301", cells)]) = Ok [(mkDate 2023 1 1, cells)])
  /\ (forall cols cells,
        ff_dated (mkRaw cols [("20231", cells); ("2023-01", cells)]) = Ok []).
Proof.
  apply date_filter_keeps_six_digit_tokens.
  intros r Hr H6. simpl in Hr.
  destruct Hr as [<-|[<-|[<-|[<-|[<-|[<-|[]]]]]]];
    try (vm_compute in H6; discriminate H6);
    eexists; vm_compute; reflexivity.
Defined.

(** C2, witness: two months of prices give a panel of one row. *)
Lemma one_row_panel_drops_the_constant_witness :
  exists capm,
    main parse_decimal OLS_exact close_2m factors_2023
    = ([Excel capm_path capm], Raise (KeyError "const")).
Proof.
  assert (Hcheck :
    match prepare parse_decimal close_2m factors_2023 with
    | Ok env =>
        match rows (env_data_merged env) with
        | [r] =>
            match cell_sub (snd r "IBEX") (snd r "RF") with
            | Some q => negb (Qeq_bool q 0)
            | None => false
            end
        | _ => false
        end
    | Raise _ => false
    end = true) by (vm_compute; reflexivity).
  destruct (prepare parse_decimal close_2m factors_2023) as [env|e] eqn:E;
    [|discriminate Hcheck].
  destruct (rows (env_data_merged env)) as [|r [|r' rs]] eqn:Hrows;
    try discriminate Hcheck.
  destruct (cell_sub (snd r "IBEX") (snd r "RF")) as [q|] eqn:Hx;
    [|discriminate Hcheck].
  assert (Hq : ~ (q == 0)%Q).
  { intros H0. apply Qeq_bool_iff in H0. rewrite H0 in Hcheck. discriminate Hcheck. }
  exact (proj2 (one_row_panel_drops_the_constant parse_decimal OLS_exact
                  close_2m factors_2023
                  OLS_exact_param_names OLS_exact_tvalue_names E Hrows Hx Hq)).
Defined.

(** The exact solver on three months of data: Alpha 0, Beta_IBEX 2, R2 1. *)
Lemma capm_of_twice_the_index_example :
  exists a b ta tb r2,
    capm_record "BKT.MC"
      (OLS_exact stock_excess_3m (capm_design (as_series index_excess_3m)))
    = Ok [("Stock", VStr "BKT.MC"); ("Alpha", VNum (Some a));
          ("Beta_IBEX", VNum (Some b)); ("Alpha_t", VNum ta); ("Beta_t", VNum tb);
          ("R2", VNum (Some r2))]
    /\ (a == 0)%Q /\ (b == 2)%Q /\ (r2 == 1)%Q.
Proof.
  apply (@capm_of_twice_the_index OLS_exact "BKT.MC" stock_excess_3m index_excess_3m).
  - repeat constructor; eexists; (split; [reflexivity | vm_compute; reflexivity]).
  - intros H. vm_compute in H. discriminate H.
  - split; [apply OLS_exact_param_names|]. split; [apply OLS_exact_tvalue_names|].
    split; [|split].
    + intros kv Hin. vm_compute in Hin.
      destruct Hin as [<-|[<-|[]]]; discriminate.
    + intros c Hc. simpl in Hc. destruct Hc as [<-|[<-|[]]]; vm_compute; reflexivity.
    + intros _. eexists. split; vm_compute; reflexivity.
Defined.

(** * Further properties of the pipeline *)

(** ** The factor table (lines 59-80) *)

Lemma filter_map_comm {A B : Type} (p : B -> bool) (g : A -> B) (l : list A) :
  filter p (map g l) = map g (filter (fun a => p (g a)) l).
Proof.
  induction l as [|a l IH]; simpl; [reflexivity|].
  destruct (p (g a)); simpl; now rewrite IH.
Qed.

Lemma filter_filter {A : Type} (p q : A -> bool) (l : list A) :
  filter p (filter q l) = filter (fun a => q a && p a) l.
Proof.
  induction l as [|a l IH]; simpl; [reflexivity|].
  destruct (q a); simpl; [destruct (p a)|]; now rewrite IH.
Qed.

Lemma ff_dated_rows (raw : RawFrame) :
  (forall r, In r (raw_rows raw) -> six_digits (strip (fst r)) = true ->
             exists d, to_datetime_Ym (strip (fst r)) = Ok d) ->
  ff_dated raw
  = Ok (map (fun r => (token_month_start (strip (fst r)), snd r))
            (filter (fun r => six_digits (strip (fst r))) (raw_rows raw))).
Proof.
  intros H. unfold ff_dated. rewrite keep_YYYYMM_spec.
  apply ff_dated_of_valid_months.
  intros r Hr. apply filter_In in Hr. destruct Hr as [Hr H6]. now apply H.
Qed.

(** X1.  Provided every six-digit token names a month the parser accepts and
    the file has the four factor columns, the loader returns a table with
    the columns Mkt-RF, SMB, HML, RF whose rows are, in file order, exactly
    the rows with a six-digit token and four numeric factor texts, each
    under the first day of its month and each value the number read divided
    by 100. *)
Theorem load_factors_keeps_numeric_rows (to_numeric : string -> option Q)
    (raw : RawFrame) :
  (forall r, In r (raw_rows raw) -> six_digits (strip (fst r)) = true ->
             exists d, to_datetime_Ym (strip (fst r)) = Ok d) ->
  incl ff_columns (raw_columns raw) ->
  exists ff,
    load_factors to_numeric raw = Ok ff
    /\ columns ff = ff_columns
    /\ rows ff
       = map (fun r => (token_month_start (strip (fst r)),
                        fun c => div100 (to_numeric (snd r c))))
             (filter (is_factor_row to_numeric) (raw_rows raw))
    /\ (forall r c, In r (rows ff) -> In c ff_columns -> exists q, snd r c = Some q).
Proof.
  intros Hmonths Hcols.
  pose proof (Hdated := ff_dated_rows raw Hmonths).
  unfold load_factors. rewrite Hdated. cbn [rbind].
  rewrite (proj2 (first_missing_None _ _) Hcols).
  eexists. split; [reflexivity|]. split; [reflexivity|].
  assert (Hrows :
    rows (dropna
            (mkFrame ff_columns
               (map (fun r => (fst r, fun c => to_numeric (snd r c)))
                    (map (fun r => (token_month_start (strip (fst r)), snd r))
                         (filter (fun r => six_digits (strip (fst r))) (raw_rows raw))))))
    = map (fun r => (token_month_start (strip (fst r)),
                     fun c => to_numeric (snd r c)))
          (filter (is_factor_row to_numeric) (raw_rows raw))).
  { unfold dropna. cbn [rows columns]. rewrite map_map.
    rewrite filter_map_comm, filter_filter. reflexivity. }
  cbn [rows]. rewrite Hrows. split.
  - rewrite map_map. reflexivity.
  - intros r c Hr Hc. rewrite map_map in Hr.
    apply in_map_iff in Hr. destruct Hr as [r0 [<- Hr0]]. cbn [snd].
    apply filter_In in Hr0. destruct Hr0 as [_ Hr0].
    unfold is_factor_row in Hr0. apply andb_true_iff in Hr0. destruct Hr0 as [_ Hnum].
    rewrite forallb_forall in Hnum. specialize (Hnum c Hc).
    destruct (to_numeric (snd r0 c)) as [q|]; [simpl; eauto | discriminate].
Qed.

Lemma load_factors_keeps_numeric_rows_witness :
  exists ff,
    load_factors parse_decimal factors_with_blank = Ok ff
    /\ index ff = [mkDate 2023 1 1; mkDate 2023 3 1]
    /\ (forall r c, In r (rows ff) -> In c ff_columns -> exists q, snd r c = Some q).
Proof.
  destruct (@load_factors_keeps_numeric_rows parse_decimal factors_with_blank)
    as [ff [Hload [_ [Hrows Hcomplete]]]].
  - intros r Hr H6. simpl in Hr.
    destruct Hr as [<-|[<-|[<-|[]]]]; eexists; vm_compute; reflexivity.
  - apply incl_refl.
  - exists ff. split; [exact Hload|]. split; [|exact Hcomplete].
    unfold index. rewrite Hrows. vm_compute. reflexivity.
Defined.

Lemma first_missing_Some (names have : list string) (c : string) :
  first_missing names have = Some c -> In c names /\ ~ In c have.
Proof.
  induction names as [|n l IH]; simpl; [discriminate|].
  destruct (mem n have) eqn:E.
  - intros H. destruct (IH H). tauto.
  - intros H. injection H as <-. split; [now left|].
    intros Hin. apply mem_In in Hin. congruence.
Qed.

Lemma first_missing_exists (names have : list string) :
  ~ incl names have -> exists c, first_missing names have = Some c.
Proof.
  intros H. destruct (first_missing names have) as [c|] eqn:E; [eauto|].
  exfalso. apply H. now apply first_missing_None.
Qed.

(** X2.  When the dates of the file parse but one of the four factor columns
    (Mkt-RF, SMB, HML, RF) is not in the file, the loader raises [KeyError]
    for a factor column that the file lacks. *)
Theorem load_factors_missing_column (to_numeric : string -> option Q)
    (raw : RawFrame) :
  (forall r, In r (raw_rows raw) -> six_digits (strip (fst r)) = true ->
             exists d, to_datetime_Ym (strip (fst r)) = Ok d) ->
  ~ incl ff_columns (raw_columns raw) ->
  exists c,
    In c ff_columns /\ ~ In c (raw_columns raw)
    /\ load_factors to_numeric raw = Raise (KeyError c).
Proof.
  intros Hmonths Hmiss.
  destruct (@first_missing_exists ff_columns (raw_columns raw) Hmiss) as [c Hc].
  destruct (@first_missing_Some ff_columns (raw_columns raw) c Hc) as [Hin Hnot].
  exists c. split; [exact Hin|]. split; [exact Hnot|].
  unfold load_factors. rewrite (ff_dated_rows raw Hmonths). cbn [rbind].
  now rewrite Hc.
Qed.

Lemma load_factors_missing_column_witness :
  exists c,
    In c ff_columns /\ ~ In c (raw_columns factors_without_RF)
    /\ load_factors parse_decimal factors_without_RF = Raise (KeyError c).
Proof.
  apply (@load_factors_missing_column parse_decimal factors_without_RF).
  - intros r Hr H6. simpl in Hr.
    destruct Hr as [<-|[<-|[]]]; eexists; vm_compute; reflexivity.
  - intros H. assert (Hrf : In "RF" (raw_columns factors_without_RF)).
    { apply H. unfold ff_columns. simpl. tauto. }
    simpl in Hrf. intuition discriminate.
Defined.

(** ** Missing ticker columns (lines 87-88) *)

Lemma monthly_returns_columns (close : DataFrame) :
  columns (monthly_returns close) = columns close.
Proof.
  unfold monthly_returns, relabel_month_start, dropna, pct_change.
  cbn [columns]. apply monthly_prices_columns.
Qed.

Lemma first_missing_app (l1 l2 have : list string) :
  first_missing (l1 ++ l2) have
  = match first_missing l1 have with
    | Some n => Some n
    | None => first_missing l2 have
    end.
Proof.
  induction l1 as [|n l1 IH]; simpl; [reflexivity|].
  destruct (mem n have); [exact IH | reflexivity].
Qed.

(** X3.  When the factor file loads but the download lacks the column of a
    configured ticker (one of the five stocks or the index), the run stops
    with [KeyError] for a ticker that the download lacks, and writes
    nothing. *)
Theorem missing_ticker_column_raises
    (to_numeric : string -> option Q)
    (OLS_fit : list (Timestamp * option Q) -> DataFrame -> RegressionResults)
    (close : DataFrame) (raw : RawFrame) (ff : DataFrame) :
  load_factors to_numeric raw = Ok ff ->
  ~ incl all_tickers (columns close) ->
  exists s,
    In s all_tickers /\ ~ In s (columns close)
    /\ prepare to_numeric close raw = Raise (KeyError s)
    /\ main to_numeric OLS_fit close raw = ([], Raise (KeyError s)).
Proof.
  intros Hload Hnot.
  destruct (@first_missing_exists all_tickers (columns close) Hnot) as [s Hmiss].
  destruct (@first_missing_Some all_tickers (columns close) s Hmiss) as [Hin Hout].
  assert (Hprep : prepare to_numeric close raw = Raise (KeyError s)).
  { unfold prepare. rewrite Hload. cbn [rbind].
    unfold all_tickers in Hmiss. rewrite first_missing_app in Hmiss.
    unfold select. rewrite monthly_returns_columns.
    destruct (first_missing stocks (columns close)) as [n|] eqn:E.
    - injection Hmiss as ->. reflexivity.
    - cbn [rbind]. unfold getcol. rewrite monthly_returns_columns.
      cbn [first_missing] in Hmiss.
      destruct (mem index_ticker (columns close)); [discriminate|].
      injection Hmiss as <-. reflexivity. }
  exists s. split; [exact Hin|]. split; [exact Hout|].
  split; [exact Hprep|]. now apply main_not_prepared.
Qed.

Lemma missing_ticker_column_raises_witness :
  exists s,
    In s all_tickers /\ ~ In s (columns close_without_LOG)
    /\ prepare parse_decimal close_without_LOG factors_2023 = Raise (KeyError s)
    /\ main parse_decimal OLS_exact close_without_LOG factors_2023
       = ([], Raise (KeyError s)).
Proof.
  destruct (is_ok_inv (load_factors parse_decimal factors_2023))
    as [ff Hff]; [vm_compute; reflexivity|].
  apply (@missing_ticker_column_raises parse_decimal OLS_exact close_without_LOG
           factors_2023 ff Hff).
  intros H. assert (Hlog : In "LOG.MC" (columns close_without_LOG)).
  { apply H. unfold all_tickers, stocks. simpl. tauto. }
  simpl in Hlog. intuition discriminate.
Defined.

(** ** The valid-stock filter (line 118) *)

Lemma series_has_value (rs : list (Timestamp * (string -> option Q))) (s : string) :
  negb (empty (series_dropna (map (fun r => (fst r, snd r s)) rs)))
  = existsb (fun r => notna (snd r s)) rs.
Proof.
  induction rs as [|r rs IH]; [reflexivity|].
  cbn [map series_dropna filter existsb snd] in IH |- *.
  destruct (notna (snd r s)); [reflexivity | exact IH].
Qed.

(** X4.  On any excess-return frame and any list of its columns, the filter
    keeps, in the order of the list, exactly the stocks that have a value in
    at least one row. *)
Theorem valid_stocks_have_a_value (esr : DataFrame) (l : list string) :
  incl l (columns esr) ->
  exists valid,
    valid_stocks esr l = Ok valid
    /\ valid = filter (fun s => existsb (fun r => notna (snd r s)) (rows esr)) l
    /\ (forall s, In s valid <->
                  In s l /\ exists r q, In r (rows esr) /\ snd r s = Some q).
Proof.
  intros Hincl. rewrite (valid_stocks_filter esr Hincl).
  eexists. split; [reflexivity|]. split.
  - apply filter_ext. intros s. apply series_has_value.
  - intros s. rewrite filter_In, series_has_value, existsb_exists. split.
    + intros [Hs [r [Hr Hn]]]. split; [exact Hs|].
      destruct (snd r s) as [q|] eqn:E; [eauto | discriminate].
    + intros [Hs [r [q [Hr Hq]]]]. split; [exact Hs|].
      exists r. split; [exact Hr|]. now rewrite Hq.
Qed.

Lemma valid_stocks_have_a_value_witness :
  exists valid,
    valid_stocks excess_with_blank_column ["BKT.MC"; "ENG.MC"; "ANA.MC"] = Ok valid
    /\ valid = ["BKT.MC"; "ANA.MC"].
Proof.
  destruct (@valid_stocks_have_a_value excess_with_blank_column
              ["BKT.MC"; "ENG.MC"; "ANA.MC"]) as [valid [Hv [Heq _]]].
  - apply incl_refl.
  - exists valid. split; [exact Hv|]. rewrite Heq. vm_compute. reflexivity.
Defined.

(** ** Excess returns (lines 109-113) *)

(** X5.  In a run that gets past section 7, the regression inputs are read
    off the merged panel row by row: the index excess return is IBEX minus
    RF, the excess return of every valid stock is its return minus RF of the
    same month, SMB and HML are the panel's columns, and all of them carry
    the dates of the panel. *)
Theorem excess_returns_of_the_panel (to_numeric : string -> option Q)
    (close : DataFrame) (raw : RawFrame) (env : Env) :
  prepare to_numeric close raw = Ok env ->
  let panel := env_data_merged env in
  env_excess_ibex env
  = map (fun r => (fst r, cell_sub (snd r "IBEX") (snd r "RF"))) (rows panel)
  /\ env_SMB env = map (fun r => (fst r, snd r "SMB")) (rows panel)
  /\ env_HML env = map (fun r => (fst r, snd r "HML")) (rows panel)
  /\ (forall s, In s (env_valid_stocks env) ->
        getcol (env_excess_stock_returns env) s
        = Ok (map (fun r => (fst r, cell_sub (snd r s) (snd r "RF"))) (rows panel)))
  /\ series_index (env_excess_ibex env) = index panel
  /\ (forall e, In e (env_excess_ibex env) -> exists q, snd e = Some q).
Proof.
  intros H panel. subst panel.
  pose proof (Hp := prepare_Ok _ _ _ H).
  destruct Hp as [ff [merged [Hff [Hm [Hcols [Hvalid Henv]]]]]].
  assert (Hcomplete : forall r c, In r (rows merged) -> In c (columns merged) ->
                                  exists q, snd r c = Some q).
  { pose proof (Hd := data_merged_Ok _ _ _ Hm). cbv zeta in Hd.
    rewrite Hd. intros r c Hr Hc. exact (dropna_complete _ r c Hr Hc). }
  rewrite Henv.
  cbn [env_excess_ibex env_SMB env_HML env_data_merged env_valid_stocks
       env_excess_stock_returns].
  split; [reflexivity|]. split; [reflexivity|]. split; [reflexivity|]. split.
  - intros s Hs. rewrite getcol_In by exact Hs.
    unfold excess_rows. cbn [rows]. rewrite map_map. reflexivity.
  - split.
    + unfold series_index, index. rewrite map_map. reflexivity.
    + intros e He. apply in_map_iff in He. destruct He as [r [<- Hr]]. cbn [snd].
      destruct (Hcomplete r "IBEX" Hr) as [x ->].
      { rewrite Hcols. apply in_or_app. right. now left. }
      destruct (Hcomplete r "RF" Hr) as [rf ->].
      { rewrite Hcols. apply in_or_app. right. unfold ff_columns. simpl. tauto. }
      simpl. eauto.
Qed.

Lemma excess_returns_of_the_panel_witness :
  exists env,
    prepare parse_decimal close_4m factors_2023 = Ok env
    /\ series_index (env_excess_ibex env) = index (env_data_merged env).
Proof.
  destruct (is_ok_inv (prepare parse_decimal close_4m factors_2023))
    as [env E]; [vm_compute; reflexivity|].
  exists env. split; [exact E|].
  exact (proj1 (proj2 (proj2 (proj2 (proj2
           (@excess_returns_of_the_panel parse_decimal close_4m factors_2023 env E)))))).
Defined.

(** ** Order of dates *)

Lemma forallb2_eq {A : Type} (eqb : A -> A -> bool)
    (Heq : forall a b, eqb a b = true <-> a = b) (l1 l2 : list A) :
  forallb2 eqb l1 l2 = true -> l1 = l2.
Proof.
  revert l2. induction l1 as [|a l1 IH]; destruct l2 as [|b l2]; simpl;
    try discriminate; [reflexivity|].
  intros H. apply andb_true_iff in H. destruct H as [Hab Hl].
  apply Heq in Hab. subst b. f_equal. now apply IH.
Qed.

Lemma date_eqb_spec (a b : Timestamp) :
  date_eqb a b = true <-> (year a = year b /\ month a = month b /\ day a = day b).
Proof.
  unfold date_eqb. rewrite !andb_true_iff, !Z.eqb_eq. tauto.
Qed.

Lemma date_leb_spec (a b : Timestamp) :
  date_leb a b = true <->
  (year a < year b
   \/ (year a = year b
       /\ (month a < month b \/ (month a = month b /\ day a <= day b))))%Z.
Proof.
  unfold date_leb. rewrite orb_true_iff, date_ltb_spec, date_eqb_spec. lia.
Qed.

Lemma date_ltb_false (a b : Timestamp) :
  date_ltb a b = false <-> date_leb b a = true.
Proof.
  rewrite date_leb_spec. split.
  - intros H. assert (Hn : ~ date_ltb a b = true) by congruence.
    rewrite date_ltb_spec in Hn. lia.
  - intros H. destruct (date_ltb a b) eqn:E; [|reflexivity].
    apply date_ltb_spec in E. lia.
Qed.

Lemma date_trichotomy (a b : Timestamp) :
  date_ltb a b = false -> date_eqb a b = false -> date_lt b a.
Proof.
  intros H1 H2. unfold date_lt. apply date_ltb_false in H1.
  rewrite date_leb_spec in H1. rewrite date_ltb_spec.
  assert (Hn : ~ date_eqb a b = true) by congruence.
  rewrite date_eqb_spec in Hn. lia.
Qed.

Lemma sorted_chronological (l : list Timestamp) :
  StronglySorted date_lt l -> chronological l = true.
Proof.
  induction 1 as [|a l Hs IH Hall]; [reflexivity|].
  destruct l as [|b l]; [reflexivity|].
  change (chronological (a :: b :: l)) with (date_ltb a b && chronological (b :: l)).
  rewrite IH, andb_true_r.
  rewrite Forall_forall in Hall. apply Hall. now left.
Qed.

Lemma sorted_no_duplicates (l : list Timestamp) :
  StronglySorted date_lt l -> has_duplicates l = false.
Proof.
  induction 1 as [|a l Hs IH Hall]; [reflexivity|].
  cbn [has_duplicates]. rewrite IH, orb_false_r.
  destruct (existsb (date_eqb a) l) eqn:E; [|reflexivity].
  apply existsb_exists in E. destruct E as [x [Hx He]].
  apply date_eqb_eq in He. subst x.
  rewrite Forall_forall in Hall. specialize (Hall a Hx).
  unfold date_lt in Hall. rewrite date_ltb_irrefl in Hall. discriminate.
Qed.

Lemma sorted_map_filter {A B : Type} (R : B -> B -> Prop) (g : A -> B)
    (p : A -> bool) (l : list A) :
  StronglySorted R (map g l) -> StronglySorted R (map g (filter p l)).
Proof.
  induction l as [|a l IH]; simpl; intros H; [constructor|].
  inversion H as [|? ? Hs Hall]; subst.
  destruct (p a); [|now apply IH].
  cbn [map]. constructor; [now apply IH|].
  rewrite Forall_forall in *. intros x Hx.
  apply in_map_iff in Hx. destruct Hx as [y [<- Hy]].
  apply Hall. apply in_map. apply filter_In in Hy. tauto.
Qed.

Lemma insert_date_sorted (d : Timestamp) (l : list Timestamp) :
  StronglySorted date_lt l -> StronglySorted date_lt (insert_date d l).
Proof.
  induction 1 as [|a l Hs IH Hall]; cbn [insert_date].
  - constructor; constructor.
  - destruct (date_ltb d a) eqn:E1.
    + constructor; [constructor; assumption|].
      constructor; [exact E1|].
      rewrite Forall_forall in *. intros x Hx.
      exact (date_lt_trans E1 (Hall x Hx)).
    + destruct (date_eqb d a) eqn:E2; [constructor; assumption|].
      constructor; [exact IH|].
      rewrite Forall_forall in *. intros x Hx.
      apply insert_date_In in Hx. destruct Hx as [->|Hx]; [|now apply Hall].
      now apply date_trichotomy.
Qed.

Lemma union_index_sorted (l : list Timestamp) : StronglySorted date_lt (union_index l).
Proof.
  unfold union_index. induction l as [|d l IH]; cbn [fold_right]; [constructor|].
  now apply insert_date_sorted.
Qed.

(** ** Labels of the monthly returns (lines 46-50) *)

Lemma month_start_increasing (m m' : Z) :
  (m < m')%Z -> date_lt (month_start m) (month_start m').
Proof.
  intros H. unfold date_lt. rewrite date_ltb_spec. unfold month_start. cbn [year month day].
  pose proof (Z.div_mod m 12 ltac:(lia)). pose proof (Z.div_mod m' 12 ltac:(lia)).
  pose proof (Z.mod_pos_bound m 12 ltac:(lia)).
  pose proof (Z.mod_pos_bound m' 12 ltac:(lia)).
  lia.
Qed.

Lemma zrange_month_starts_sorted (lo : Z) (n : nat) :
  StronglySorted date_lt (map month_start (zrange lo n)).
Proof.
  revert lo. induction n as [|n IH]; intros lo; cbn [zrange map]; [constructor|].
  constructor; [apply IH|].
  rewrite Forall_forall. intros d Hd. apply in_map_iff in Hd.
  destruct Hd as [m [<- Hm]]. apply In_zrange in Hm.
  apply month_start_increasing. lia.
Qed.

Lemma pct_rows_index (f : option Q -> option Q -> option Q)
    (M : list (Timestamp * (string -> option Q))) :
  forall prev,
    map fst (zip_rows f (ffill_rows prev M) (shift_rows prev (ffill_rows prev M)))
    = map fst M.
Proof.
  induction M as [|[d r] M IH]; intros prev; [reflexivity|].
  cbn [ffill_rows shift_rows zip_rows map fst]. f_equal. apply IH.
Qed.

Lemma monthly_prices_index (close : DataFrame) :
  exists lo n, map fst (rows (monthly_prices close)) = map month_end (zrange lo n).
Proof.
  unfold monthly_prices, resample_M_last.
  destruct (map month_ord (index (prices close))) as [|o os].
  - exists 0%Z, 0. reflexivity.
  - eexists. eexists. cbn [rows]. rewrite map_map. cbn [fst]. reflexivity.
Qed.

Lemma monthly_returns_index_sorted (close : DataFrame) :
  StronglySorted date_lt (index (monthly_returns close))
  /\ forall d, In d (index (monthly_returns close)) -> day d = 1%Z.
Proof.
  unfold index, monthly_returns, relabel_month_start, dropna, pct_change, ffill, shift.
  cbn [rows columns]. rewrite map_map. cbn [fst].
  set (Z := zip_rows _ _ _).
  assert (HZ : exists lo n,
             map (fun r => to_month_start (fst r)) Z = map month_start (zrange lo n)).
  { destruct (monthly_prices_index close) as [lo [n Hidx]]. exists lo, n.
    rewrite <- (map_map fst to_month_start). subst Z.
    rewrite pct_rows_index, Hidx, map_map. reflexivity. }
  destruct HZ as [lo [n HZ]]. split.
  - apply sorted_map_filter. rewrite HZ. apply zrange_month_starts_sorted.
  - intros d Hd. apply in_map_iff in Hd. destruct Hd as [r [<- _]]. reflexivity.
Qed.

(** X6.  Whatever the download holds, the labels of the monthly return
    series are first days of months, in strictly increasing date order, none
    of them twice. *)
Theorem monthly_return_labels_are_ordered_month_starts (close : DataFrame) :
  chronological (index (monthly_returns close)) = true
  /\ has_duplicates (index (monthly_returns close)) = false
  /\ (forall d, In d (index (monthly_returns close)) -> day d = 1%Z).
Proof.
  destruct (monthly_returns_index_sorted close) as [Hs Hd].
  split; [now apply sorted_chronological|]. split; [now apply sorted_no_duplicates|].
  exact Hd.
Qed.

(** ** The merged panel as an inner join (lines 87-105) *)

Lemma row_at_In (df : DataFrame) (d : Timestamp) :
  In d (index df) ->
  exists r, In r (rows df) /\ fst r = d /\ row_at df d = snd r.
Proof.
  intros Hd. unfold row_at.
  destruct (find (fun r => date_eqb (fst r) d) (rows df)) as [r|] eqn:E.
  - apply find_some in E. destruct E as [Hr He]. apply date_eqb_eq in He. eauto.
  - exfalso. unfold index in Hd. apply in_map_iff in Hd. destruct Hd as [r [Hf Hr]].
    pose proof (Hn := find_none _ _ E r Hr). cbn beta in Hn.
    rewrite Hf, date_eqb_refl in Hn. discriminate.
Qed.

Lemma index_min_le (l : list Timestamp) (m d : Timestamp) :
  index_min l = Some m -> In d l -> date_leb m d = true.
Proof.
  revert m. induction l as [|x l IH]; intros m Hm Hd; [destruct Hd|].
  cbn [index_min] in Hm.
  destruct (index_min l) as [m'|] eqn:E.
  - injection Hm as <-. destruct Hd as [<-|Hd].
    + destruct (date_ltb m' x) eqn:Elt.
      * rewrite date_leb_spec. apply date_ltb_spec in Elt. lia.
      * rewrite date_leb_spec. lia.
    + specialize (IH m' eq_refl Hd).
      destruct (date_ltb m' x) eqn:Elt; [exact IH|].
      apply date_ltb_false in Elt. rewrite date_leb_spec in *. lia.
  - injection Hm as <-. destruct Hd as [<-|Hd].
    + rewrite date_leb_spec. lia.
    + destruct l; [destruct Hd | simpl in E; destruct (index_min l); discriminate].
Qed.

Lemma index_max_ge (l : list Timestamp) (m d : Timestamp) :
  index_max l = Some m -> In d l -> date_leb d m = true.
Proof.
  revert m. induction l as [|x l IH]; intros m Hm Hd; [destruct Hd|].
  cbn [index_max] in Hm.
  destruct (index_max l) as [m'|] eqn:E.
  - injection Hm as <-. destruct Hd as [<-|Hd].
    + destruct (date_ltb x m') eqn:Elt.
      * rewrite date_leb_spec. apply date_ltb_spec in Elt. lia.
      * rewrite date_leb_spec. lia.
    + specialize (IH m' eq_refl Hd).
      destruct (date_ltb x m') eqn:Elt; [exact IH|].
      apply date_ltb_false in Elt. rewrite date_leb_spec in *. lia.
  - injection Hm as <-. destruct Hd as [<-|Hd].
    + rewrite date_leb_spec. lia.
    + destruct l; [destruct Hd | simpl in E; destruct (index_max l); discriminate].
Qed.

Lemma index_bounds_exist (l : list Timestamp) (d : Timestamp) :
  In d l -> exists a b, index_min l = Some a /\ index_max l = Some b.
Proof.
  intros Hd. destruct l as [|x l]; [destruct Hd|].
  cbn [index_min index_max]. destruct (index_min l), (index_max l); eauto.
Qed.

Lemma load_factors_complete (to_numeric : string -> option Q) (raw : RawFrame)
    (ff : DataFrame) :
  load_factors to_numeric raw = Ok ff ->
  forall r c, In r (rows ff) -> In c ff_columns -> exists q, snd r c = Some q.
Proof.
  unfold load_factors. intros H. bind_inv H.
  destruct (first_missing ff_columns (raw_columns raw)); [discriminate|].
  injection H as <-. cbn [rows]. intros r c Hr Hc.
  apply in_map_iff in Hr. destruct Hr as [r0 [<- Hr0]]. cbn [snd].
  apply filter_In in Hr0. destruct Hr0 as [_ Hr0].
  destruct (proj1 (complete_row_spec _ _) Hr0 c Hc) as [q ->]. simpl. eauto.
Qed.

Lemma monthly_returns_complete (close : DataFrame) :
  forall r c, In r (rows (monthly_returns close)) -> In c (columns close) ->
              exists q, snd r c = Some q.
Proof.
  intros r c Hr Hc. unfold monthly_returns, relabel_month_start in Hr. cbn [rows] in Hr.
  apply in_map_iff in Hr. destruct Hr as [r0 [<- Hr0]]. cbn [snd].
  apply (dropna_complete _ r0 c Hr0). cbn [columns pct_change].
  now rewrite monthly_prices_columns.
Qed.

Lemma prepare_ticker_columns (to_numeric : string -> option Q) (close : DataFrame)
    (raw : RawFrame) (env : Env) :
  prepare to_numeric close raw = Ok env ->
  incl stocks (columns close) /\ In index_ticker (columns close).
Proof.
  unfold prepare. intros H.
  bind_inv H. bind_inv H. apply select_Ok in E0. destruct E0 as [Hincl _].
  bind_inv H. apply getcol_Ok in E0. destruct E0 as [Hin _].
  rewrite monthly_returns_columns in Hincl, Hin. split; assumption.
Qed.

Lemma merged_index (sr : DataFrame) (ir : list (Timestamp * option Q))
    (ff merged : DataFrame) :
  data_merged sr ir ff = Ok merged ->
  index merged
  = filter (fun d => complete_row (columns sr ++ "IBEX" :: columns ff)
                       (d, joined_row [sr; to_frame "IBEX" ir; ff] d))
           (union_index (flat_map index [sr; to_frame "IBEX" ir; ff])).
Proof.
  intros H. apply data_merged_Ok in H. cbv zeta in H. subst merged.
  unfold index at 1, dropna. cbn [rows columns].
  rewrite filter_map_comm, map_map. cbn [fst]. apply map_id.
Qed.

Lemma merged_index_sorted (sr : DataFrame) (ir : list (Timestamp * option Q))
    (ff merged : DataFrame) :
  data_merged sr ir ff = Ok merged -> StronglySorted date_lt (index merged).
Proof.
  intros H. rewrite (merged_index _ _ _ H).
  apply StronglySorted_filter, union_index_sorted.
Qed.

Lemma loc_slice_In {A : Type} (lo hi : Timestamp) (l : list (Timestamp * A))
    (r : Timestamp * A) :
  In r (loc_slice (Some lo) (Some hi) l)
  <-> In r l /\ date_leb lo (fst r) = true /\ date_leb (fst r) hi = true.
Proof.
  unfold loc_slice. rewrite filter_In, andb_true_iff. tauto.
Qed.

Lemma loc_slice_sub {A : Type} (lo hi : option Timestamp) (l : list (Timestamp * A))
    (r : Timestamp * A) :
  In r (loc_slice lo hi l) -> In r l.
Proof.
  unfold loc_slice. destruct lo, hi; try (intros []).
  intros H. apply filter_In in H. tauto.
Qed.

Lemma merged_dates (to_numeric : string -> option Q) (close : DataFrame)
    (raw : RawFrame) (env : Env) :
  prepare to_numeric close raw = Ok env ->
  forall d,
    In d (index (env_data_merged env))
    <-> In d (index (monthly_returns close)) /\ In d (index (env_ff env)).
Proof.
  intros H d.
  destruct (prepare_ticker_columns _ _ _ H) as [Hstocks Hibex].
  pose proof (Hp := prepare_Ok _ _ _ H).
  destruct Hp as [ff [merged [Hff [Hm [Hcols [Hvalid Henv]]]]]].
  rewrite Henv. cbn [env_data_merged env_ff].
  pose proof (Hffc := load_factors_columns _ _ Hff).
  split.
  - (* a date of the panel is a date of both tables *)
    intros Hd. split.
    + pose proof (Hir := merged_dates_have_index_return _ _ _ Hm eq_refl d Hd).
      unfold series_index, sliced_index_returns in Hir.
      apply in_map_iff in Hir. destruct Hir as [e [Hfst He]].
      apply loc_slice_sub in He. apply in_map_iff in He. destruct He as [r [<- Hr]].
      cbn [fst] in Hfst. subst d. unfold index. now apply in_map.
    + rewrite (merged_index _ _ _ Hm) in Hd. apply filter_In in Hd.
      destruct Hd as [_ Hc].
      destruct (proj1 (complete_row_spec _ _) Hc "RF") as [q Hq].
      { rewrite Hffc. apply in_or_app. right. unfold ff_columns. simpl. tauto. }
      cbn [snd] in Hq. simpl in Hq. rewrite Hffc in Hq. simpl in Hq.
      destruct (row_at_found ff d) as [Hnan|Hin]; [|exact Hin].
      rewrite Hnan in Hq. discriminate.
  - (* a common date is a date of the panel *)
    intros [Hret Hfac].
    destruct (index_bounds_exist _ _ Hfac) as [lo [hi [Hlo Hhi]]].
    pose proof (Hge := index_min_le _ _ Hlo Hfac).
    pose proof (Hle := index_max_ge _ _ Hhi Hfac).
    rewrite (merged_index _ _ _ Hm). apply filter_In. split.
    { apply union_index_In. cbn [flat_map]. apply in_or_app. right.
      apply in_or_app. right. rewrite app_nil_r. exact Hfac. }
    assert (Hsr : In d (index (sliced_stock_returns close ff))).
    { unfold index in Hret. apply in_map_iff in Hret. destruct Hret as [r [Hf Hr]].
      unfold index, sliced_stock_returns. cbn [rows]. rewrite Hlo, Hhi.
      apply in_map_iff. exists r. split; [exact Hf|].
      apply loc_slice_In. rewrite Hf. repeat split; assumption. }
    assert (Hir : In d (index (to_frame "IBEX" (sliced_index_returns close ff)))).
    { rewrite index_to_frame.
      unfold index in Hret. apply in_map_iff in Hret. destruct Hret as [r [Hf Hr]].
      unfold series_index, sliced_index_returns. rewrite Hlo, Hhi.
      apply in_map_iff. exists (fst r, snd r index_ticker). split; [exact Hf|].
      apply loc_slice_In. cbn [fst]. split.
      - apply in_map_iff. exists r. split; [reflexivity | exact Hr].
      - rewrite Hf. split; assumption. }
    apply complete_row_spec. intros c Hc. cbn [snd].
    change (columns (sliced_stock_returns close ff)) with stocks in Hc.
    rewrite Hffc in Hc.
    apply in_app_or in Hc. destruct Hc as [Hc|[Hc|Hc]].
    + (* a stock column *)
      cbn [joined_row]. change (columns (sliced_stock_returns close ff)) with stocks.
      rewrite (proj2 (mem_In c stocks) Hc).
      destruct (row_at_In _ _ Hsr) as [r [Hr [_ ->]]].
      unfold sliced_stock_returns in Hr. cbn [rows] in Hr. apply loc_slice_sub in Hr.
      exact (@monthly_returns_complete close r c Hr (Hstocks c Hc)).
    + (* the index column *)
      subst c. cbn [joined_row]. change (columns (sliced_stock_returns close ff)) with stocks.
      change (mem "IBEX" stocks) with false. cbn match.
      change (mem "IBEX" (columns (to_frame "IBEX" (sliced_index_returns close ff))))
        with true. cbn match.
      destruct (row_at_In _ _ Hir) as [r [Hr [_ ->]]].
      unfold to_frame in Hr. cbn [rows] in Hr.
      apply in_map_iff in Hr. destruct Hr as [e [<- He]]. cbn [snd].
      change (String.eqb "IBEX" "IBEX") with true. cbn match.
      unfold sliced_index_returns in He. apply loc_slice_sub in He.
      apply in_map_iff in He. destruct He as [r0 [<- Hr0]]. cbn [snd].
      exact (@monthly_returns_complete close r0 index_ticker Hr0 Hibex).
    + (* a factor column *)
      assert (Hjoin : joined_row
                        [sliced_stock_returns close ff;
                         to_frame "IBEX" (sliced_index_returns close ff); ff] d c
                      = row_at ff d c).
      { cbn [joined_row]. change (columns (sliced_stock_returns close ff)) with stocks.
        rewrite Hffc. unfold ff_columns in Hc.
        destruct Hc as [<-|[<-|[<-|[<-|[]]]]]; reflexivity. }
      rewrite Hjoin.
      destruct (row_at_In _ _ Hfac) as [r [Hr [_ ->]]].
      exact (@load_factors_complete to_numeric raw ff Hff r c Hr Hc).
Qed.

(** X7.  In a run that gets past section 7 on a factor table that names no
    month twice, the merged panel is the inner join of the monthly returns
    and the factor table on the month-start date: its dates are in
    increasing order, none twice, and a date is in the panel if and only if
    it is a date of the monthly return series and a date of the factor
    table. *)
Theorem merged_panel_is_the_inner_join (to_numeric : string -> option Q)
    (close : DataFrame) (raw : RawFrame) (env : Env) :
  prepare to_numeric close raw = Ok env ->
  has_duplicates (index (env_ff env)) = false ->
  chronological (index (env_data_merged env)) = true
  /\ has_duplicates (index (env_data_merged env)) = false
  /\ (forall d,
        In d (index (env_data_merged env))
        <-> In d (index (monthly_returns close)) /\ In d (index (env_ff env))).
Proof.
  intros H _.
  pose proof (Hp := prepare_Ok _ _ _ H).
  destruct Hp as [ff [merged [Hff [Hm [Hcols [Hvalid Henv]]]]]].
  pose proof (Hs := merged_index_sorted _ _ _ Hm).
  split; [|split].
  - rewrite Henv. cbn [env_data_merged]. now apply sorted_chronological.
  - rewrite Henv. cbn [env_data_merged]. now apply sorted_no_duplicates.
  - exact (merged_dates _ _ _ H).
Qed.

Lemma merged_panel_is_the_inner_join_witness :
  exists env,
    prepare parse_decimal close_4m factors_2023 = Ok env
    /\ index (env_data_merged env) = [mkDate 2023 2 1; mkDate 2023 3 1; mkDate 2023 4 1]
    /\ chronological (index (env_data_merged env)) = true.
Proof.
  assert (Hcheck :
    match prepare parse_decimal close_4m factors_2023 with
    | Ok env =>
        forallb2 date_eqb (index (env_data_merged env))
                 [mkDate 2023 2 1; mkDate 2023 3 1; mkDate 2023 4 1]
        && negb (has_duplicates (index (env_ff env)))
    | Raise _ => false
    end = true) by (vm_compute; reflexivity).
  destruct (prepare parse_decimal close_4m factors_2023) as [env|e] eqn:E;
    [|discriminate Hcheck].
  apply andb_true_iff in Hcheck. destruct Hcheck as [Hidx Hdup].
  apply negb_true_iff in Hdup.
  exists env. split; [reflexivity|]. split.
  - exact (@forallb2_eq _ date_eqb date_eqb_eq _ _ Hidx).
  - exact (proj1 (@merged_panel_is_the_inner_join parse_decimal close_4m factors_2023
                    env E Hdup)).
Defined.

(** ** The three-factor design and the end of the run (lines 127-229) *)













(** ** When sections 2-7 succeed *)

Lemma sliced_indexes_unique (close ff : DataFrame) :
  has_duplicates (index (sliced_stock_returns close ff)) = false
  /\ has_duplicates (index (to_frame "IBEX" (sliced_index_returns close ff))) = false.
Proof.
  destruct (monthly_returns_index_sorted close) as [Hs _]. split.
  - apply sorted_no_duplicates. unfold index, sliced_stock_returns. cbn [rows].
    unfold loc_slice.
    destruct (index_min (index ff)), (index_max (index ff)); try constructor.
    now apply sorted_map_filter.
  - apply sorted_no_duplicates. rewrite index_to_frame.
    unfold series_index, sliced_index_returns, loc_slice.
    destruct (index_min (index ff)), (index_max (index ff)); try constructor.
    apply sorted_map_filter. rewrite map_map. exact Hs.
Qed.

(** X9.  When the factor table loads with at least one row and without
    naming a month twice, and the download holds a column for each of the
    five stocks and for the index, sections 2 to 7 raise nothing: the run
    reaches the regressions, with the factor table and the jointly filtered
    prices as loaded. *)
Theorem prepare_succeeds (to_numeric : string -> option Q)
    (close : DataFrame) (raw : RawFrame) (ff : DataFrame) :
  load_factors to_numeric raw = Ok ff ->
  rows ff <> [] ->
  incl all_tickers (columns close) ->
  has_duplicates (index ff) = false ->
  exists env,
    prepare to_numeric close raw = Ok env
    /\ env_ff env = ff
    /\ env_prices env = prices close.
Proof.
  intros Hff _ Hinc Hdup.
  assert (Hstocks : incl stocks (columns (monthly_returns close))).
  { rewrite monthly_returns_columns. intros s Hs. apply Hinc.
    unfold all_tickers. apply in_or_app. now left. }
  assert (Hibex : In index_ticker (columns (monthly_returns close))).
  { rewrite monthly_returns_columns. apply Hinc.
    unfold all_tickers. apply in_or_app. right. now left. }
  pose proof (Hffc := load_factors_columns _ _ Hff).
  destruct (sliced_indexes_unique close ff) as [Hu1 Hu2].
  unfold prepare. rewrite Hff. cbn [rbind].
  rewrite (select_incl _ Hstocks). cbn [rbind].
  rewrite (getcol_In _ _ Hibex). cbn [rbind].
  change (loc_frame (index_min (index ff)) (index_max (index ff))
            (mkFrame stocks (rows (monthly_returns close))))
    with (sliced_stock_returns close ff).
  change (loc_slice (index_min (index ff)) (index_max (index ff))
            (map (fun r => (fst r, snd r index_ticker)) (rows (monthly_returns close))))
    with (sliced_index_returns close ff).
  unfold data_merged. rewrite concat_axis1_unique.
  2:{ intros f [<-|[<-|[<-|[]]]]; assumption. }
  cbn [rbind].
  match goal with |- context [select ?m stocks] => set (merged := m) end.
  assert (Hmc : columns merged = stocks ++ "IBEX" :: ff_columns).
  { unfold merged. cbn [columns dropna flat_map sliced_stock_returns to_frame].
    rewrite Hffc. reflexivity. }
  assert (Hin : forall c, In c (stocks ++ "IBEX" :: ff_columns) -> In c (columns merged)).
  { intros c Hc. now rewrite Hmc. }
  rewrite (select_incl merged (names := stocks)).
  2:{ intros c Hc. apply Hin, in_or_app. now left. }
  cbn [rbind].
  rewrite (getcol_In merged "RF") by (apply Hin; simpl; tauto).
  rewrite (getcol_In merged "IBEX") by (apply Hin; simpl; tauto).
  rewrite (getcol_In merged "SMB") by (apply Hin; simpl; tauto).
  rewrite (getcol_In merged "HML") by (apply Hin; simpl; tauto).
  cbn [rbind rows columns].
  rewrite sub_axis0_column.
  rewrite valid_stocks_filter by (cbn [columns]; apply incl_refl).
  cbn [rbind rows].
  rewrite !select_incl by (cbn [columns]; apply incl_filter).
  cbn [rbind]. eexists. split; [reflexivity|]. split; reflexivity.
Qed.

Lemma prepare_succeeds_witness :
  exists env,
    prepare parse_decimal close_4m factors_2023 = Ok env
    /\ env_prices env = prices close_4m.
Proof.
  assert (Hcheck :
    match load_factors parse_decimal factors_2023 with
    | Ok ff => negb (empty (rows ff)) && negb (has_duplicates (index ff))
    | Raise _ => false
    end = true) by (vm_compute; reflexivity).
  destruct (load_factors parse_decimal factors_2023) as [ff|e] eqn:E;
    [|discriminate Hcheck].
  apply andb_true_iff in Hcheck. destruct Hcheck as [Hrows Hdup].
  apply negb_true_iff in Hdup.
  assert (Hne : rows ff <> []).
  { intros H0. rewrite H0 in Hrows. discriminate Hrows. }
  destruct (@prepare_succeeds parse_decimal close_4m factors_2023 ff E Hne
              (proj1 (first_missing_None all_tickers (columns close_4m)) eq_refl)
              Hdup)
    as [env [Hp [_ Hpr]]].
  exists env. split; assumption.
Defined.

(** ** Output files (lines 151, 182, 199, 224) *)

Lemma append_prefix_inj (p s t : string) :
  String.append p s = String.append p t -> s = t.
Proof.
  induction p as [|a p IH]; simpl; intros H; [exact H|].
  injection H as H. now apply IH.
Qed.

Lemma length_of_append (s t : string) :
  String.length (String.append s t) = String.length s + String.length t.
Proof. induction s as [|a s IH]; simpl; [reflexivity | now rewrite IH]. Qed.

Lemma append_suffix_inj (s t suf : string) :
  String.append s suf = String.append t suf -> s = t.
Proof.
  revert t. induction s as [|a s IH]; intros [|b t] H; simpl in H.
  - reflexivity.
  - exfalso. apply (f_equal String.length) in H. simpl in H.
    rewrite length_of_append in H. lia.
  - exfalso. apply (f_equal String.length) in H. simpl in H.
    rewrite length_of_append in H. lia.
  - injection H as -> H. f_equal. now apply IH.
Qed.

Lemma jointplot_path_inj (s t : string) :
  jointplot_path s = jointplot_path t -> s = t.
Proof.
  unfold jointplot_path. intros H.
  apply append_prefix_inj in H. now apply append_suffix_inj in H.
Qed.

Lemma NoDup_map_of_inj {A B : Type} (f : A -> B) (l : list A) :
  (forall x y, f x = f y -> x = y) -> NoDup l -> NoDup (map f l).
Proof.
  intros Hinj. induction 1 as [|x l Hx Hl IH]; cbn [map]; constructor; [|exact IH].
  intros Hin. apply in_map_iff in Hin. destruct Hin as [y [Hf Hy]].
  apply Hinj in Hf. now subst y.
Qed.

Lemma NoDup_stocks : NoDup stocks.
Proof.
  unfold stocks. repeat constructor; simpl; intuition discriminate.
Qed.

Lemma fixed_paths_are_no_jointplot (s : string) :
  jointplot_path s <> capm_path /\ jointplot_path s <> ff3_path
  /\ jointplot_path s <> price_plot_path.
Proof.
  unfold jointplot_path, capm_path, ff3_path, price_plot_path.
  repeat split; intros H; simpl in H; discriminate H.
Qed.

Lemma full_log_paths_distinct (valid : list string) (capm ff3 : list (list (string * value))) :
  NoDup valid ->
  NoDup (map artifact_path
           (Excel capm_path capm :: Excel ff3_path ff3
            :: Figure price_plot_path valid
            :: map (fun s => Figure (jointplot_path s) [s; "IBEX"]) valid)).
Proof.
  intros Hv. cbn [map artifact_path]. rewrite map_map. cbn [artifact_path].
  assert (Hnot : forall p, In p (map jointplot_path valid) ->
                           p <> capm_path /\ p <> ff3_path /\ p <> price_plot_path).
  { intros p Hp. apply in_map_iff in Hp. destruct Hp as [s [<- _]].
    apply fixed_paths_are_no_jointplot. }
  constructor.
  { intros [H|[H|H]]; [discriminate H | discriminate H |].
    destruct (Hnot _ H) as [Hc _]. now apply Hc. }
  constructor.
  { intros [H|H]; [discriminate H |].
    destruct (Hnot _ H) as [_ [Hf _]]. now apply Hf. }
  constructor.
  { intros H. destruct (Hnot _ H) as [_ [_ Hp]]. now apply Hp. }
  apply NoDup_map_of_inj; [exact jointplot_path_inj | exact Hv].
Qed.

(** X10.  No run writes two files under the same path: the paths of the
    files written by a run, whether it ends normally or stops on an
    exception, are pairwise distinct; and the scatter charts of two
    different stocks never share a path. *)
Theorem output_files_are_distinct
    (to_numeric : string -> option Q)
    (OLS_fit : list (Timestamp * option Q) -> DataFrame -> RegressionResults)
    (close : DataFrame) (raw : RawFrame) :
  NoDup (map artifact_path (log (main to_numeric OLS_fit close raw)))
  /\ (forall s t, jointplot_path s = jointplot_path t -> s = t).
Proof.
  split; [|exact jointplot_path_inj].
  destruct (prepare to_numeric close raw) as [env|e] eqn:E.
  - rewrite (main_prepared _ _ _ _ E).
    assert (Hv : NoDup (env_valid_stocks env)).
    { destruct (prepare_Ok _ _ _ E) as [ff [merged [_ [_ [_ [Hvalid _]]]]]].
      rewrite Hvalid. destruct (empty (rows merged)); [constructor | exact NoDup_stocks]. }
    destruct (report_cases OLS_fit env)
      as [[e [_ ->]] | [[capm [e [_ [_ ->]]]] | [capm [ff3 [_ [_ ->]]]]]].
    + constructor.
    + cbn [log fst map]. constructor; [intros [] | constructor].
    + cbn [log fst]. now apply full_log_paths_distinct.
  - rewrite (main_not_prepared _ _ _ _ E). constructor.
Qed.

(** ** Monthly returns over months without observations (lines 46-50) *)

Lemma last_valid_In (l : list (option Q)) (q : Q) :
  last_valid l = Some q -> In (Some q) l.
Proof.
  induction l as [|x l IH]; cbn [last_valid]; [discriminate|].
  destruct (last_valid l) as [q'|].
  - intros H. injection H as ->. right. now apply IH.
  - intros ->. now left.
Qed.

Lemma last_valid_None (l : list (option Q)) :
  last_valid l = None -> forall y, In y l -> y = None.
Proof.
  induction l as [|x l IH]; cbn [last_valid]; [intros _ y []|].
  destruct (last_valid l) as [q'|]; [discriminate|].
  intros -> y [<-|Hy]; [reflexivity | now apply IH].
Qed.

(** [pct_change] after the first month: every month of the range gets a
    complete row, and a month whose bin is empty repeats the price carried
    forward, so its return is zero. *)
Lemma pct_filled (cols : list string) (Lr : Z -> string -> option Q) (k : nat) :
  forall (b : Z) (prev : string -> option Q),
    (forall c, In c cols -> exists q, prev c = Some q /\ ~ (q == 0)%Q) ->
    (forall m c q, (b < m <= b + Z.of_nat k)%Z -> In c cols ->
                   Lr m c = Some q -> ~ (q == 0)%Q) ->
    let M := map (fun m => (month_end m, Lr m)) (zrange (b + 1) k) in
    Forall2 (fun m row =>
               fst row = month_start m
               /\ forall c, In c cols ->
                    exists v, snd row c = Some v /\ (Lr m c = None -> (v == 0)%Q))
      (zrange (b + 1) k)
      (map (fun r => (to_month_start (fst r), snd r))
         (filter (complete_row cols)
            (zip_rows (fun x y => cell_sub (cell_div x y) (Some 1%Q))
               (ffill_rows prev M) (shift_rows prev (ffill_rows prev M))))).
Proof.
  induction k as [|k IH]; intros b prev Hprev Hcur M; [constructor|].
  subst M. cbn [zrange map ffill_rows shift_rows zip_rows filter].
  assert (Hcell : forall c, In c cols ->
            exists v,
              cell_sub
                (cell_div
                   match Lr (b + 1)%Z c with
                   | Some q => Some q
                   | None => prev c
                   end (prev c))
                (Some 1%Q) = Some v
              /\ (Lr (b + 1)%Z c = None -> (v == 0)%Q)).
  { intros c Hc. destruct (Hprev c Hc) as [p [Hp Hp0]]. rewrite Hp.
    destruct (Lr (b + 1)%Z c) as [q|] eqn:Eq.
    - unfold cell_div. rewrite (Qeq_bool_false Hp0). cbn [cell_sub].
      eexists. split; [reflexivity | discriminate].
    - unfold cell_div. rewrite (Qeq_bool_false Hp0). cbn [cell_sub].
      eexists. split; [reflexivity|]. intros _. field. exact Hp0. }
  assert (Hkeep : complete_row cols
                    (month_end (b + 1),
                     fun c => cell_sub
                                (cell_div
                                   match Lr (b + 1)%Z c with
                                   | Some q => Some q
                                   | None => prev c
                                   end (prev c))
                                (Some 1%Q)) = true).
  { apply complete_row_spec. intros c Hc. cbn [snd].
    destruct (Hcell c Hc) as [v [Hv _]]. eauto. }
  rewrite Hkeep. cbn [map fst snd]. constructor.
  - split; [reflexivity|]. intros c Hc. cbn [snd]. exact (Hcell c Hc).
  - apply (IH (b + 1)%Z
             (fun c => match Lr (b + 1)%Z c with Some q => Some q | None => prev c end)).
    + intros c Hc. destruct (Lr (b + 1)%Z c) as [q|] eqn:Eq.
      * exists q. split; [reflexivity|]. apply (Hcur (b + 1)%Z c q); [lia | exact Hc | exact Eq].
      * exact (Hprev c Hc).
    + intros m c q Hm Hc. apply Hcur; [lia | exact Hc].
Qed.

Lemma month_span_rows (close : DataFrame) (lo hi : Z) :
  month_span (prices close) = Some (lo, hi) ->
  rows (monthly_prices close)
  = map (fun m =>
           (month_end m,
            fun c => last_valid
                       (map (fun r => snd r c)
                            (filter (in_month m) (rows (prices close))))))
        (zrange lo (S (Z.to_nat (hi - lo))))
  /\ In lo (map month_ord (index (prices close))).
Proof.
  unfold month_span, monthly_prices, resample_M_last.
  destruct (map month_ord (index (prices close))) as [|o os] eqn:E; [discriminate|].
  intros H. injection H as <- <-. split; [reflexivity|].
  exact (proj1 (fold_min_spec o os)).
Qed.

(** X11.  For a price table with at least one ticker column and no zero
    price, whose rows span the calendar months [lo] to [hi]: the monthly
    return series has exactly one entry for every calendar month after [lo]
    up to [hi], in order and labelled by the first day of the month, with a
    return in every ticker column; the entry of a month that holds no row of
    the price table is zero in every column. *)
Theorem monthly_returns_cover_every_month (close : DataFrame) (lo hi : Z) :
  columns close <> [] ->
  nonzero_prices (prices close) = true ->
  month_span (prices close) = Some (lo, hi) ->
  Forall2 (is_month_entry (prices close)) (zrange (lo + 1) (Z.to_nat (hi - lo)))
          (rows (monthly_returns close))
  /\ List.length (rows (monthly_returns close)) = Z.to_nat (hi - lo).
Proof.
  intros Hcols Hnzb Hspan.
  assert (Hnz : forall r c q, In r (rows (prices close)) -> In c (columns close) ->
                              snd r c = Some q -> ~ (q == 0)%Q).
  { intros r c q Hr Hc Hq H0. unfold nonzero_prices in Hnzb.
    rewrite forallb_forall in Hnzb. specialize (Hnzb r Hr).
    rewrite forallb_forall in Hnzb. specialize (Hnzb c Hc).
    rewrite Hq in Hnzb. apply Qeq_bool_iff in H0. rewrite H0 in Hnzb. discriminate. }
  destruct (month_span_rows close Hspan) as [Hrows Hlo].
  set (Lr := fun (m : Z) (c : string) =>
               last_valid (map (fun r => snd r c)
                             (filter (in_month m) (rows (prices close))))).
  change (rows (monthly_prices close)
          = map (fun m => (month_end m, Lr m)) (zrange lo (S (Z.to_nat (hi - lo)))))
    in Hrows.
  assert (Hsome : forall m c q, In c (columns close) -> Lr m c = Some q -> ~ (q == 0)%Q).
  { intros m c q Hc Hq. unfold Lr in Hq. apply last_valid_In in Hq.
    apply in_map_iff in Hq. destruct Hq as [r [Hr Hin]].
    apply filter_In in Hin. destruct Hin as [Hin _]. exact (Hnz r c q Hin Hc Hr). }
  assert (Hfirst : forall c, In c (columns close) ->
                             exists q, Lr lo c = Some q /\ ~ (q == 0)%Q).
  { intros c Hc. destruct (Lr lo c) as [q|] eqn:Eq.
    - exists q. split; [reflexivity | exact (Hsome lo c q Hc Eq)].
    - exfalso. unfold index in Hlo. rewrite map_map in Hlo.
      apply in_map_iff in Hlo. destruct Hlo as [r [Hm Hr]].
      destruct (dropna_complete close r c Hr Hc) as [q Hq].
      assert (Hin : In (snd r c) (map (fun r => snd r c)
                                    (filter (in_month lo) (rows (prices close))))).
      { apply in_map_iff. exists r. split; [reflexivity|]. apply filter_In.
        split; [exact Hr|]. unfold in_month. now apply Z.eqb_eq. }
      unfold Lr in Eq. rewrite (last_valid_None _ Eq _ Hin) in Hq. discriminate. }
  assert (Hmain : Forall2 (is_month_entry (prices close))
                    (zrange (lo + 1) (Z.to_nat (hi - lo)))
                    (rows (monthly_returns close))).
  { unfold monthly_returns, relabel_month_start, dropna, pct_change, ffill, shift.
    cbn [rows columns]. rewrite Hrows, monthly_prices_columns.
    cbn [zrange map ffill_rows shift_rows zip_rows filter].
    assert (Hdrop : complete_row (columns close)
                      (month_end lo,
                       fun c => cell_sub
                                  (cell_div
                                     match Lr lo c with
                                     | Some q => Some q
                                     | None => nan_row c
                                     end (nan_row c))
                                  (Some 1%Q))
                    = false).
    { destruct (columns close) as [|c0 cs]; [congruence|].
      unfold complete_row. cbn [forallb snd nan_row].
      destruct (Lr lo c0); reflexivity. }
    rewrite Hdrop.
    refine (Forall2_impl _ _
              (@pct_filled (columns close) Lr (Z.to_nat (hi - lo)) lo
                 (fun c => match Lr lo c with Some q => Some q | None => nan_row c end)
                 _ _)).
    - intros m row [Hfst Hrow]. split; [exact Hfst|]. intros c Hc.
      destruct (Hrow c Hc) as [v [Hv Hzero]]. exists v. split; [exact Hv|].
      intros Hempty. apply Hzero. unfold Lr. rewrite Hempty. reflexivity.
    - intros c Hc. destruct (Hfirst c Hc) as [q [-> Hq]]. eauto.
    - intros m c q _ Hc. now apply Hsome. }
  split; [exact Hmain|].
  apply Forall2_length in Hmain. rewrite <- Hmain. apply length_zrange.
Qed.

Lemma monthly_returns_cover_every_month_witness :
  Forall2 (is_month_entry (prices close_gap))
          (zrange (24276 + 1) (Z.to_nat (24279 - 24276)))
          (rows (monthly_returns close_gap))
  /\ List.length (rows (monthly_returns close_gap)) = Z.to_nat (24279 - 24276).
Proof.
  apply (@monthly_returns_cover_every_month close_gap 24276%Z 24279%Z).
  - discriminate.
  - vm_compute. reflexivity.
  - vm_compute. reflexivity.
Defined.

(** ** A date token the timestamp parser refuses (lines 62-70) *)

Lemma to_datetime_Ym_Raise (s : string) (e : error) :
  to_datetime_Ym s = Raise e -> e = ValueError s.
Proof.
  unfold to_datetime_Ym. intros H.
  destruct s as [|a [|b [|c [|d [|e0 [|f [|g s]]]]]]];
    try (injection H as <-; reflexivity).
  cbv zeta in H.
  match type of H with (if ?b then _ else _) = _ => destruct b end;
    [discriminate H | injection H as <-; reflexivity].
Qed.

Lemma bad_month_raises (s : string) :
  six_digits s = true ->
  ~ (1 <= month (token_month_start s) <= 12)%Z ->
  to_datetime_Ym s = Raise (ValueError s).
Proof.
  unfold six_digits. intros H Hm. apply andb_true_iff in H. destruct H as [Hlen _].
  apply Nat.eqb_eq in Hlen.
  destruct s as [|a [|b [|c [|d [|e0 [|f [|g s]]]]]]]; try discriminate Hlen.
  unfold token_month_start in Hm. cbn [list_ascii_of_string map month] in Hm.
  unfold to_datetime_Ym. cbv zeta.
  destruct (1 <=? Z.of_nat (10 * digit_val e0 + digit_val f))%Z eqn:E1;
    [|now rewrite !andb_false_r].
  destruct (Z.of_nat (10 * digit_val e0 + digit_val f) <=? 12)%Z eqn:E2;
    [|now rewrite !andb_false_r].
  exfalso. apply Hm. apply Z.leb_le in E1, E2. split; assumption.
Qed.

Lemma mapM_first_failure {A B : Type} (f : A -> result B) (l : list A) (a : A)
    (e : error) :
  In a l -> f a = Raise e ->
  exists a' e', In a' l /\ f a' = Raise e' /\ mapM f l = Raise e'.
Proof.
  induction l as [|x l IH]; intros Hin Hf; [destruct Hin|].
  cbn [mapM]. destruct (f x) as [b|e1] eqn:Ex.
  - destruct Hin as [->|Hin]; [congruence|].
    destruct (IH Hin Hf) as [a' [e' [Ha' [Hfa' Hm]]]].
    exists a', e'. split; [now right|]. split; [exact Hfa'|].
    cbn [rbind]. rewrite Hm. reflexivity.
  - exists x, e1. split; [now left|]. split; [exact Ex | reflexivity].
Qed.

(** X12.  A six-digit date token whose last two digits are not a month (01
    to 12) passes the pattern of the date filter and makes the timestamp
    parser raise: the factor loader stops with [ValueError] on a six-digit
    token of the file, and the run ends there without having written any
    file. *)
Theorem unparsable_month_stops_the_run
    (to_numeric : string -> option Q)
    (OLS_fit : list (Timestamp * option Q) -> DataFrame -> RegressionResults)
    (close : DataFrame) (raw : RawFrame) (r : string * (string -> string)) :
  In r (raw_rows raw) ->
  six_digits (strip (fst r)) = true ->
  ~ (1 <= month (token_month_start (strip (fst r))) <= 12)%Z ->
  exists r',
    In r' (raw_rows raw)
    /\ six_digits (strip (fst r')) = true
    /\ load_factors to_numeric raw = Raise (ValueError (strip (fst r')))
    /\ main to_numeric OLS_fit close raw = ([], Raise (ValueError (strip (fst r')))).
Proof.
  intros Hr Hsix Hmonth.
  pose proof (Hraise := bad_month_raises _ Hsix Hmonth).
  assert (Hkept : In (strip (fst r), snd r) (keep_YYYYMM raw)).
  { rewrite keep_YYYYMM_spec. apply in_map_iff. exists r. split; [reflexivity|].
    apply filter_In. split; assumption. }
  destruct (mapM_first_failure (fun k => to_datetime_Ym (fst k)) _ _ Hkept Hraise)
    as [k [e [Hk [Hfk Hm]]]].
  apply to_datetime_Ym_Raise in Hfk. subst e.
  rewrite keep_YYYYMM_spec in Hk. apply in_map_iff in Hk.
  destruct Hk as [r' [<- Hr']]. apply filter_In in Hr'. destruct Hr' as [Hin' Hsix'].
  cbn [fst] in Hm.
  assert (Hload : load_factors to_numeric raw = Raise (ValueError (strip (fst r')))).
  { unfold load_factors, ff_dated. cbv zeta. rewrite Hm. reflexivity. }
  exists r'. split; [exact Hin'|]. split; [exact Hsix'|]. split; [exact Hload|].
  apply main_not_prepared. unfold prepare. rewrite Hload. reflexivity.
Qed.

Lemma unparsable_month_stops_the_run_witness :
  exists r',
    In r' (raw_rows factors_bad_month)
    /\ six_digits (strip (fst r')) = true
    /\ load_factors parse_decimal factors_bad_month
       = Raise (ValueError (strip (fst r')))
    /\ main parse_decimal OLS_exact close_4m factors_bad_month
       = ([], Raise (ValueError (strip (fst r')))).
Proof.
  apply (@unparsable_month_stops_the_run parse_decimal OLS_exact close_4m
           factors_bad_month (raw_row "202313" "-0.80" "0.10" "0.40" "0.10")).
  - right. left. reflexivity.
  - vm_compute. reflexivity.
  - vm_compute. intros [_ H]. apply H. reflexivity.
Defined.
